(** * Verification of the transcript chunker (src/backend/chunker.py)

    A shallow embedding of [Chunker]: the Python [str] operations it relies
    on ([strip], [split], [join]), the generator [_chunk_by_length] with its
    [try]/[except AttributeError] wrapper, the unimplemented
    [_chunk_by_time], and the pandas assembly done by [get_chunks].
    Thresholds are Python ints, in [Z]; the start and end times of a line
    are numbers compared by their order only, taken in [Z] as well. *)

From Stdlib Require Import ZArith NArith String Ascii.
From stdpp Require Import base list strings gmap.

Local Open Scope Z_scope.

(** ** Python [str] values

    A [str] is a sequence of Unicode code points. *)

Definition pystr := list N.

Definition str_of (s : string) : pystr :=
  map N_of_ascii (list_ascii_of_string s).

(** [str.isspace] for one code point: the characters on which a bare
    [str.split()] and [str.strip()] cut. *)
Definition isspace (c : N) : bool :=
  ((9 <=? c) && (c <=? 13) || (28 <=? c) && (c <=? 32) || (c =? 133)
   || (c =? 160) || (c =? 5760) || (8192 <=? c) && (c <=? 8202)
   || (c =? 8232) || (c =? 8233) || (c =? 8239) || (c =? 8287)
   || (c =? 12288))%N.

Definition SPACE : N := 32%N.

Fixpoint lstrip (s : pystr) : pystr :=
  match s with
  | [] => []
  | c :: s' => if isspace c then lstrip s' else s
  end.

Fixpoint rstrip (s : pystr) : pystr :=
  match s with
  | [] => []
  | c :: s' =>
      match rstrip s' with
      | [] => if isspace c then [] else [c]
      | r => c :: r
      end
  end.

(** [s.strip()] *)
Definition strip (s : pystr) : pystr := rstrip (lstrip s).

Definition flush (w : pystr) : list pystr :=
  match w with [] => [] | _ => [w] end.

(** The scan behind [s.split()]: [w] is the word being read. *)
Fixpoint split_acc (w : pystr) (s : pystr) : list pystr :=
  match s with
  | [] => flush w
  | c :: s' =>
      if isspace c then flush w ++ split_acc [] s'
      else split_acc (w ++ [c]) s'
  end.

(** [s.split()] with no separator: the maximal runs of non-space characters. *)
Definition split (s : pystr) : list pystr := split_acc [] s.

(** [sep.join(parts)] *)
Fixpoint join (sep : pystr) (parts : list pystr) : pystr :=
  match parts with
  | [] => []
  | [p] => p
  | p :: rest => p ++ sep ++ join sep rest
  end.

(** [len(x)] *)
Definition len {A} (l : list A) : Z := Z.of_nat (length l).

(** [sum(xs)] over integers *)
Definition sum (xs : list Z) : Z := foldr Z.add 0 xs.

(** [lst.index(x)]: position of the first element equal to [x]. *)
Fixpoint index (x : pystr) (l : list pystr) : option nat :=
  match l with
  | [] => None
  | y :: l' => if decide (y = x) then Some 0%nat else S <$> index x l'
  end.

(** ** Values, exceptions, generators *)

(** A transcript line as the scraper delivers it: a [str], or a value
    without a [strip] attribute, such as [None] or the float [np.NaN] the
    scraper stores when a video has no transcript; on it [.strip] raises
    [AttributeError]. *)
Inductive pyval :=
  | PStr (s : pystr)
  | PNaN.

Inductive exn :=
  | AssertionError
  | AttributeError
  | IndexError
  | KeyError
  | NotImplementedError
  | ValueError.

Inductive result (A : Type) :=
  | Ok (a : A)
  | Err (e : exn).
Arguments Ok {A} a.
Arguments Err {A} e.

#[global] Instance result_ret : MRet result := fun _ a => Ok a.

#[global] Instance result_bind : MBind result := fun _ _ f m =>
  match m with
  | Ok a => f a
  | Err e => Err e
  end.

(** [xs[i]] and the like: an absent element raises [e]. *)
Definition or_raise {A} (e : exn) (o : option A) : result A :=
  match o with
  | Some a => Ok a
  | None => Err e
  end.

Fixpoint mapM {A B} (f : A -> result B) (l : list A) : result (list B) :=
  match l with
  | [] => Ok []
  | a :: l' => b ← f a; bs ← mapM f l'; Ok (b :: bs)
  end.

(** A field of a yielded dict: a proper value or [np.NaN]. *)
Inductive cell (A : Type) :=
  | NaN
  | Val (a : A).
Arguments NaN {A}.
Arguments Val {A} a.

(** The dict built by the [pack] lambda. *)
Record ChunkRecord := pack {
  videoId : string;
  block : cell pystr;
  length_of_block : cell Z;
  start_time : cell Z;
  end_time : cell Z
}.

(** What a generator does when it is run to its end: the values it yields,
    in order, then a normal return or an exception. *)
Inductive gen :=
  | Stop
  | Raise (e : exn)
  | Yield (r : ChunkRecord) (k : gen).

Fixpoint yields (g : gen) : list ChunkRecord :=
  match g with
  | Yield r k => r :: yields k
  | _ => []
  end.

Fixpoint raised (g : gen) : option exn :=
  match g with
  | Stop => None
  | Raise e => Some e
  | Yield _ k => raised k
  end.

(** [try: body except AttributeError: handler] inside a generator. *)
Fixpoint except_AttributeError (body handler : gen) : gen :=
  match body with
  | Stop => Stop
  | Raise AttributeError => handler
  | Raise e => Raise e
  | Yield r k => Yield r (except_AttributeError k handler)
  end.

(** [list(g)] *)
Definition list_of_gen (g : gen) : result (list ChunkRecord) :=
  match raised g with
  | None => Ok (yields g)
  | Some e => Err e
  end.

(** ** The Chunker *)

Record Chunker := {
  chunk_by : string;
  expected_threshold : Z;
  min_tolerable_threshold : Z
}.

Definition _func_mapping_dict : gmap string string :=
  {[ "length"%string := "_chunk_by_length"%string;
     "time"%string := "_chunk_by_time"%string ]}.

Definition defaults (e m : Z) : gmap string Z :=
  {[ "expected_threshold"%string := e;
     "min_tolerable_threshold"%string := m ]}.

Definition _default_values_dict : gmap string (gmap string Z) :=
  {[ "length"%string := defaults 225 150; "time"%string := defaults 60 45 ]}.

(** [Chunker.__init__(chunk_by, **kwargs)] *)
Definition __init__ (chunk_by : string) (kwargs : gmap string Z)
  : result Chunker :=
  if decide (chunk_by ∈ ["time"%string; "length"%string]) then
    dflt ← or_raise KeyError (_default_values_dict !! chunk_by);
    e ← or_raise KeyError (dflt !! "expected_threshold"%string);
    m ← or_raise KeyError (dflt !! "min_tolerable_threshold"%string);
    Ok {| chunk_by := chunk_by;
          expected_threshold :=
            default e (kwargs !! "expected_threshold"%string);
          min_tolerable_threshold :=
            default m (kwargs !! "min_tolerable_threshold"%string) |}
  else Err AssertionError.

(** [_chunk_by_time]: no [yield] in its body, so the call itself raises. *)
Definition _chunk_by_time (self : Chunker) (video_id : string)
    (subtitles : list pyval) (timestamps : list (Z * Z)) : result gen :=
  Err NotImplementedError.

(** [len(subtitle.strip().split())], failing on a line that is no [str]. *)
Definition strip_split_len (subtitle : pyval) : result (pystr * Z) :=
  match subtitle with
  | PStr s => Ok (s, len (split (strip s)))
  | PNaN => Err AttributeError
  end.

(** Line 48, the unzipping of [timestamps] into [start_times] and
    [end_times]: with no timestamp the unpacking has nothing to bind and
    raises [ValueError]. *)
Definition zip_star (timestamps : list (Z * Z)) : result (list Z * list Z) :=
  match timestamps with
  | [] => Err ValueError
  | _ => Ok (timestamps.*1, timestamps.*2)
  end.

Record state := {
  st_block : list pystr;
  st_length_of_block : Z;
  st_covered_length : Z
}.

Section Loop.
Variable self : Chunker.
Variable video_id : string.
(* every line has passed [.strip()] once total_length is known: all are str *)
Variable subtitles : list pystr.
Variables start_times end_times : list Z.
Variable total_length : Z.

(** The dict yielded for the lines [blk], [end_time] being the lookup the
    yield makes in [end_times]. Fields are evaluated in order. *)
Definition emit (blk : list pystr) (end_time : option Z)
  : result ChunkRecord :=
  let text := join [SPACE] blk in
  let size := sum ((fun line => len (split line)) <$> blk) in
  first ← or_raise IndexError (head blk);
  i ← or_raise ValueError (index first subtitles);
  s ← or_raise IndexError (start_times !! i);
  e ← or_raise IndexError end_time;
  Ok (pack video_id (Val text) (Val size) (Val s) (Val e)).

(** [for idx, subtitle in enumerate(subtitles): ...] from position [idx]
    on, [rest] being the lines not yet visited. *)
Fixpoint loop (rest : list pystr) (idx : nat) (st : state) : gen :=
  match rest with
  | [] => Stop
  | subtitle :: rest' =>
      let n := len (split (strip subtitle)) in
      let blk := st_block st ++ [subtitle] in
      let length := st_length_of_block st + n in
      let covered := st_covered_length st + n in
      if (expected_threshold self <=? length)
         && (min_tolerable_threshold self <=? total_length - covered)
      then
        match emit blk (end_times !! idx) with
        | Ok r =>
            Yield r (loop rest' (S idx)
                       {| st_block := []; st_length_of_block := 0;
                          st_covered_length := covered |})
        | Err e => Raise e
        end
      else if total_length - covered <=? min_tolerable_threshold self
      then
        match emit (blk ++ drop idx subtitles) (last end_times) with
        | Ok r => Yield r Stop
        | Err e => Raise e
        end
      else
        loop rest' (S idx)
          {| st_block := blk; st_length_of_block := length;
             st_covered_length := covered |}
  end.
End Loop.

(** Line 42, the state before the first line. *)
Definition init_state : state :=
  {| st_block := []; st_length_of_block := 0; st_covered_length := 0 |}.

Definition degenerate (video_id : string) : ChunkRecord :=
  pack video_id NaN NaN NaN NaN.

(** The body of the [try] block. *)
Definition try_body (self : Chunker) (video_id : string)
    (subtitles : list pyval) (timestamps : list (Z * Z)) : gen :=
  match mapM strip_split_len subtitles with
  | Err e => Raise e
  | Ok counted =>
      let total_length := sum (counted.*2) in
      match zip_star timestamps with
      | Err e => Raise e
      | Ok (start_times, end_times) =>
          loop self video_id (counted.*1) start_times end_times total_length
            (counted.*1) 0 init_state
      end
  end.

Definition _chunk_by_length (self : Chunker) (video_id : string)
    (subtitles : list pyval) (timestamps : list (Z * Z)) : gen :=
  except_AttributeError (try_body self video_id subtitles timestamps)
    (Yield (degenerate video_id) Stop).

(** ** The batch: [get_chunks] and the pandas operations it uses *)

(** A frame of yielded dicts: each row carries its index label. A frame
    built from no dict has no row and no column. *)
Definition DataFrame := list (nat * ChunkRecord).

(** [pd.DataFrame(list(blocks))]: rows labelled [0 .. n-1]. *)
Definition make_df (blocks : list ChunkRecord) : DataFrame :=
  imap (fun i r => (i, r)) blocks.

(** [pd.concat(frames)]: rows stacked with their labels kept; no frame at
    all is a [ValueError]. *)
Definition pd_concat (frames : list DataFrame) : result DataFrame :=
  match frames with
  | [] => Err ValueError
  | _ => Ok (concat frames)
  end.

(** A row of the indexed table: the key [(videoId, block_number)] and the
    remaining columns. *)
Record Row := {
  key : string * nat;
  row_block : cell pystr;
  row_length_of_block : cell Z;
  row_start_time : cell Z;
  row_end_time : cell Z
}.

Definition to_row (ir : nat * ChunkRecord) : Row :=
  {| key := (videoId ir.2, ir.1);
     row_block := block ir.2;
     row_length_of_block := length_of_block ir.2;
     row_start_time := start_time ir.2;
     row_end_time := end_time ir.2 |}.

(** [df.reset_index().rename(columns={"index": "block_number"})
       .set_index(["videoId", "block_number"])]: a frame without rows has no
    [videoId] column to index by. *)
Definition index_df (df : DataFrame) : result (list Row) :=
  match df with
  | [] => Err KeyError
  | _ => Ok (to_row <$> df)
  end.

Definition method :=
  Chunker -> string -> list pyval -> list (Z * Z) -> result gen.

(** [getattr(self, name)] for the two segmenting methods; calling a
    generator function only builds the generator. *)
Definition getattr (name : string) : result method :=
  if decide (name = "_chunk_by_length"%string)
  then Ok (fun self v s t => Ok (_chunk_by_length self v s t))
  else if decide (name = "_chunk_by_time"%string)
  then Ok _chunk_by_time
  else Err AttributeError.

Definition item : Type := string * list pyval * list (Z * Z).

(** One element of the list comprehension. *)
Definition frame_of (self : Chunker) (it : item) : result DataFrame :=
  let '(video_id, subtitles, timestamps) := it in
  name ← or_raise KeyError (_func_mapping_dict !! chunk_by self);
  f ← getattr name;
  g ← f self video_id subtitles timestamps;
  blocks ← list_of_gen g;
  Ok (make_df blocks).

Definition get_chunks (self : Chunker) (scrapped_df : list item)
  : result (list Row) :=
  frames ← mapM (frame_of self) scrapped_df;
  df ← pd_concat frames;
  index_df df.

(** ** The shape of a run of the loop

    [segment j k] is the slice [subtitles[j:k]]. A run of the loop that
    stands before line [idx] with the open block [segment j idx] skips a
    line, closes the block at a line, merges the tail at a line, or finds
    no line left. [run j idx blks g] records the blocks handed to [pack]
    on the way. *)

Definition emit_then (res : result ChunkRecord) (k : gen) : gen :=
  match res with
  | Ok r => Yield r k
  | Err e => Raise e
  end.

Section Run.
Variable video_id : string.
Variable subtitles : list pystr.
Variables start_times end_times : list Z.

Definition segment (j k : nat) : list pystr := drop j (take k subtitles).

Inductive run : nat -> nat -> list (list pystr) -> gen -> Prop :=
  | run_exhausted j :
      run j (length subtitles) [] Stop
  | run_skip j idx blks g :
      (idx < length subtitles)%nat ->
      run j (S idx) blks g ->
      run j idx blks g
  | run_close j idx blks g :
      (idx < length subtitles)%nat ->
      run (S idx) (S idx) blks g ->
      run j idx (segment j (S idx) :: blks)
        (emit_then
           (emit video_id subtitles start_times (segment j (S idx))
              (end_times !! idx)) g)
  | run_merge j idx :
      (idx < length subtitles)%nat ->
      run j idx [segment j (S idx) ++ drop idx subtitles]
        (emit_then
           (emit video_id subtitles start_times
              (segment j (S idx) ++ drop idx subtitles) (last end_times))
           Stop).
End Run.

(** [total_length] for lines that are all text. *)
Definition word_total (lines : list pystr) : Z :=
  sum ((fun s => len (split (strip s))) <$> lines).

(** ** The table the batch is meant to build

    Each item's yielded records in emission order, keyed by the item's id
    and the 0-based rank of the record within the item; items in input
    order. *)

Definition segment_item (self : Chunker) (it : item) : gen :=
  _chunk_by_length self it.1.1 it.1.2 it.2.

Definition item_rows (self : Chunker) (it : item) : list Row :=
  imap (fun i r =>
          {| key := (it.1.1, i);
             row_block := block r;
             row_length_of_block := length_of_block r;
             row_start_time := start_time r;
             row_end_time := end_time r |})
       (yields (segment_item self it)).

Definition chunked_table (self : Chunker) (scrapped_df : list item)
  : list Row :=
  scrapped_df ≫= item_rows self.

(** The batch returns that table. *)
Definition assembles (self : Chunker) (scrapped_df : list item) : Prop :=
  get_chunks self scrapped_df = Ok (chunked_table self scrapped_df).

(** Segmentation is refused before any line is visited. *)
Definition rejected_up_front (g : gen) : Prop := exists e, g = Raise e.

(** ** Inputs used in the examples *)

Definition length_policy (expected min_tolerable : Z) : Chunker :=
  {| chunk_by := "length"; expected_threshold := expected;
     min_tolerable_threshold := min_tolerable |}.

Definition time_policy (expected min_tolerable : Z) : Chunker :=
  {| chunk_by := "time"; expected_threshold := expected;
     min_tolerable_threshold := min_tolerable |}.

(** [[(i, i+1) for i in range(n)]] *)
Definition unit_intervals (n : nat) : list (Z * Z) :=
  (fun i => (Z.of_nat i, Z.of_nat i + 1)) <$> seq 0 n.

Definition line (s : string) : pyval := PStr (str_of s).

(** ** Temporal order

    Intervals that each start no later than they end and follow one
    another in line order; records whose time spans follow one another
    from [lo] on. *)

Definition well_formed (timestamps : list (Z * Z)) : Prop :=
  (forall i p, timestamps !! i = Some p -> p.1 <= p.2)
  /\ (forall i p q,
        timestamps !! i = Some p -> timestamps !! S i = Some q ->
        p.2 <= q.1).

Fixpoint ordered_from (lo : Z) (rs : list ChunkRecord) : Prop :=
  match rs with
  | [] => True
  | r :: rs' =>
      exists s e,
        start_time r = Val s /\ end_time r = Val e
        /\ lo <= s /\ s <= e /\ ordered_from e rs'
  end.

(** ** The scraper (src/backend/clients/youtube_client.py)

    The parts of [YouTubeClient] that prepare what the chunker reads: the
    playlist ids taken from watch URLs in [from_playlist], and the
    transcript path of [_execute_query] and [_process_query]. The calls into
    the YouTube libraries are parameters. *)

Module YouTubeClient.

(** [s.startswith(prefix)] *)
Fixpoint startswith (s prefix : pystr) : bool :=
  match prefix, s with
  | [], _ => true
  | _ :: _, [] => false
  | p :: prefix', c :: s' => (c =? p)%N && startswith s' prefix'
  end.

(** [s.find(sub)]: the lowest index at which [sub] occurs, or -1. *)
Fixpoint find (s sub : pystr) : Z :=
  if startswith s sub then 0
  else match s with
       | [] => -1
       | _ :: s' => let i := find s' sub in if i =? -1 then -1 else i + 1
       end.

(** The slice [s[k:]]; a negative [k] counts from the end. *)
Definition slice_from (s : pystr) (k : Z) : pystr :=
  if k <? 0 then drop (Z.to_nat (len s + k)) s else drop (Z.to_nat k) s.

Definition WATCH : pystr := str_of "https://www.youtube.com/watch?".

Definition LIST : pystr := str_of "&list=".

(** The two lambdas of [from_playlist], lines 291 to 296. *)
Definition is_url (playlist : pystr) : bool :=
  if startswith playlist WATCH then true else false.

Definition extract_playlist_id (playlist : pystr) : pystr :=
  slice_from playlist (find playlist LIST + 6).

(** The list [playlist_ids] of [from_playlist], lines 297 to 300. *)
Definition playlist_ids (playlists : list pystr) : list pystr :=
  (fun playlist =>
     if is_url playlist then extract_playlist_id playlist else playlist)
    <$> playlists.

(** One dict of a transcript: its text and two numbers of seconds, taken
    in [Z] as the chunker's times are, each possibly [np.NaN]. *)
Record entry := {
  text : pyval;
  start : cell Z;
  duration : cell Z
}.

(** Line 118, what is yielded when the transcript call fails. *)
Definition placeholder : entry :=
  {| text := PNaN; start := NaN; duration := NaN |}.

(** [_execute_query] for [query_kind="transcript"], lines 110 to 118:
    [fetched] is what the call into the transcript library does, a list of
    dicts or an exception of any kind, which the bare [except] turns into
    the placeholder. The values yielded, in order. *)
Definition _execute_query_transcript (fetched : result (list entry))
  : list (list entry) :=
  match fetched with
  | Ok response => [response]
  | Err _ => [[placeholder]]
  end.

Section Transcript.
(* df.start + df.duration, the addition pandas makes element by element on
   the two columns: of float64 numbers, or of int64 numbers with their
   wrap-around. What it computes is not modelled. *)
Variable plus : cell Z -> cell Z -> cell Z.

(** [_process_query] for [query_kind="transcript"], lines 128 and 134 to
    140: the one row (subtitles, timestamps) of the frame returned. A frame
    built from no dict has no [text] column. *)
Definition _process_query_transcript (response : list (list entry))
  : result (list pyval * list (cell Z * cell Z)) :=
  match concat response with
  | [] => Err AttributeError
  | rows =>
      Ok (text <$> rows,
          (fun r => (start r, plus (start r) (duration r))) <$> rows)
  end.
End Transcript.

(** [_execute_query] for [query_kind="metadata"], lines 99 to 109.

    A response of the metadata API: the [nextPageToken] and [items] keys,
    when present. *)
Record response (A : Type) := {
  nextPageToken : option pystr;
  items : option (list A)
}.
Arguments nextPageToken {A} _.
Arguments items {A} _.

(** How a run of the generator ends. *)
Inductive ending :=
  | Returned
  | Raised (e : exn)
  | Unfinished.

(** What a run leaves behind: the pages yielded, [state["units_consumed"]]
    and the ending. *)
Record pages (A : Type) := {
  yielded : list (list A);
  units_consumed : Z;
  ended : ending
}.
Arguments yielded {A} _.
Arguments units_consumed {A} _.
Arguments ended {A} _.

Section Metadata.
Variable A : Type.
(* the request of lines 102 to 105 as a function of the page token: a
   response, or the exception the API client raises *)
Variable execute : pystr -> result (response A).
(* query_params.get("maxResults") *)
Variable maxResults : option Z.

(** The [while has_next_page] loop run for at most [fuel] requests. *)
Fixpoint paginate (fuel : nat) (pageToken : pystr) (units : Z) : pages A :=
  match fuel with
  | O => {| yielded := []; units_consumed := units; ended := Unfinished |}
  | S fuel' =>
      match execute pageToken with
      | Err e =>
          {| yielded := []; units_consumed := units; ended := Raised e |}
      | Ok response =>
          let pageToken' := default [] (nextPageToken response) in
          let has_next_page := negb (bool_decide (pageToken' = [])) in
          let units' := units + default 1 maxResults in
          match items response with
          | None =>
              {| yielded := []; units_consumed := units';
                 ended := Raised KeyError |}
          | Some page =>
              let rest :=
                if has_next_page then paginate fuel' pageToken' units'
                else {| yielded := []; units_consumed := units';
                        ended := Returned |} in
              {| yielded := page :: yielded rest;
                 units_consumed := units_consumed rest;
                 ended := ended rest |}
          end
      end
  end.
End Metadata.

End YouTubeClient.

(** Timestamps all of whose numbers are proper, as the chunker takes
    them. *)
Fixpoint numbers (timestamps : list (cell Z * cell Z))
  : option (list (Z * Z)) :=
  match timestamps with
  | [] => Some []
  | (Val a, Val b) :: timestamps' => cons (a, b) <$> numbers timestamps'
  | _ => None
  end.

(** One element of the list comprehension of [from_playlist], lines 327 to
    337: the transcript row of one video, [plus] being the addition of the
    start and duration columns. *)
Definition transcript_row (plus : cell Z -> cell Z -> cell Z)
    (fetched : result (list YouTubeClient.entry))
  : result (list pyval * list (cell Z * cell Z)) :=
  YouTubeClient._process_query_transcript plus
    (YouTubeClient._execute_query_transcript fetched).

(** The code point of the ampersand. *)
Definition AMP : N := 38%N.

(** What a caller of [from_playlist] means by an argument: a bare playlist
    id, which does not start like a watch URL, or a watch URL whose first
    parameter after the query [q] is the list. *)
Inductive names : pystr -> pystr -> Prop :=
  | names_id (playlist : pystr) :
      YouTubeClient.startswith playlist YouTubeClient.WATCH = false ->
      names playlist playlist
  | names_url (q id : pystr) :
      AMP ∉ q ->
      names (YouTubeClient.WATCH ++ q ++ YouTubeClient.LIST ++ id) id.

(** The pages the API serves from a page token on, up to the first
    response without a next token. *)
Inductive served {A} (execute : pystr -> result (YouTubeClient.response A))
  : pystr -> list (list A) -> Prop :=
  | served_last pageToken r page :
      execute pageToken = Ok r ->
      YouTubeClient.items r = Some page ->
      default [] (YouTubeClient.nextPageToken r) = [] ->
      served execute pageToken [page]
  | served_next pageToken r page ps :
      execute pageToken = Ok r ->
      YouTubeClient.items r = Some page ->
      default [] (YouTubeClient.nextPageToken r) <> [] ->
      served execute (default [] (YouTubeClient.nextPageToken r)) ps ->
      served execute pageToken (page :: ps).

(** Two APIs for the examples: one that serves two pages, the second
    under the token "p2", and one whose every response names a next
    page. *)
Definition two_pages (pageToken : pystr)
  : result (YouTubeClient.response nat) :=
  if decide (pageToken = []) then
    Ok {| YouTubeClient.nextPageToken := Some (str_of "p2");
          YouTubeClient.items := Some [1; 2]%nat |}
  else if decide (pageToken = str_of "p2") then
    Ok {| YouTubeClient.nextPageToken := None;
          YouTubeClient.items := Some [3]%nat |}
  else Err ValueError.

Definition endless (pageToken : pystr)
  : result (YouTubeClient.response nat) :=
  Ok {| YouTubeClient.nextPageToken := Some (str_of "more");
        YouTubeClient.items := Some [0]%nat |}.

(** * Properties *)

(** ** Construction *)

Example init_defaults_length :
  __init__ "length" ∅ = Ok (length_policy 225 150).
Proof. reflexivity. Qed.

Example init_defaults_time : __init__ "time" ∅ = Ok (time_policy 60 45).
Proof. reflexivity. Qed.

Example init_unknown_strategy : __init__ "words" ∅ = Err AssertionError.
Proof. reflexivity. Qed.

(** Both thresholds given by the caller override the defaults. *)
Lemma init_length (e m : Z) :
  __init__ "length"
    {[ "expected_threshold"%string := e;
       "min_tolerable_threshold"%string := m ]}
  = Ok (length_policy e m).
Proof. reflexivity. Qed.

(** ** Python strings *)

Example split_example :
  split (str_of "  so  what is
 life ") = [str_of "so"; str_of "what"; str_of "is"; str_of "life"].
Proof. reflexivity. Qed.

Example strip_example : strip (str_of "  a b  ") = str_of "a b".
Proof. reflexivity. Qed.

Example join_example :
  join [SPACE] [str_of "a"; str_of "b c"; str_of "d"] = str_of "a b c d".
Proof. reflexivity. Qed.


(** ** [split], [strip] and [join] *)

Lemma isspace_SPACE : isspace SPACE = true.
Proof. reflexivity. Qed.

Lemma split_acc_sep (sp : N) (w a b : pystr) :
  isspace sp = true ->
  split_acc w (a ++ sp :: b) = split_acc w a ++ split b.
Proof.
  intros Hsp. revert w.
  induction a as [|c a IH]; intros w; simpl.
  - by rewrite Hsp.
  - destruct (isspace c); [|by apply IH].
    by rewrite IH, (assoc_L (++)).
Qed.

Lemma split_lstrip (s : pystr) : split (lstrip s) = split s.
Proof.
  unfold split. induction s as [|c s IH]; simpl; [done|].
  destruct (isspace c) eqn:Hc; simpl; [done|].
  by rewrite Hc.
Qed.

Lemma split_acc_rstrip (w s : pystr) :
  split_acc w (rstrip s) = split_acc w s.
Proof.
  revert w. induction s as [|c s IH]; intros w; [done|].
  simpl. destruct (rstrip s) as [|x r] eqn:Hr.
  - destruct (isspace c) eqn:Hc; simpl.
    + rewrite <- IH. simpl. by rewrite (right_id_L [] (++)).
    + by rewrite Hc, <- IH.
  - rewrite <- !IH. simpl. by destruct (isspace c).
Qed.

(** [s.strip().split()] and [s.split()] produce the same words. *)
Lemma split_strip (s : pystr) : split (strip s) = split s.
Proof.
  unfold strip. rewrite <- (split_lstrip s). apply split_acc_rstrip.
Qed.

(** Splitting a space-joined text gives the words of the parts, in order. *)
Lemma split_join (blk : list pystr) :
  split (join [SPACE] blk) = blk ≫= split.
Proof.
  induction blk as [|p [|q blk] IH]; simpl in *.
  - done.
  - by rewrite (right_id_L [] (++)).
  - unfold split at 1. rewrite split_acc_sep by done.
    by rewrite IH.
Qed.

Lemma len_app {A} (l k : list A) : len (l ++ k) = len l + len k.
Proof. unfold len. rewrite length_app. lia. Qed.

Lemma sum_app (xs ys : list Z) : sum (xs ++ ys) = sum xs + sum ys.
Proof. unfold sum. induction xs; simpl; lia. Qed.

Lemma len_split_join (blk : list pystr) :
  len (split (join [SPACE] blk))
  = sum ((fun line => len (split line)) <$> blk).
Proof.
  rewrite split_join.
  induction blk as [|p blk IH]; [done|].
  change ((p :: blk) ≫= split) with (split p ++ (blk ≫= split)).
  rewrite len_app, IH. done.
Qed.

(** ** What a yield of the loop looks like *)

Lemma emit_Ok video_id subtitles start_times blk et r :
  emit video_id subtitles start_times blk et = Ok r ->
  exists first i s e,
    head blk = Some first /\ index first subtitles = Some i
    /\ start_times !! i = Some s /\ et = Some e
    /\ r = pack video_id (Val (join [SPACE] blk))
             (Val (sum ((fun line => len (split line)) <$> blk)))
             (Val s) (Val e).
Proof.
  unfold emit. intros H.
  destruct (head blk) as [first|]; simpl in H; [|done].
  destruct (index first subtitles) as [i|] eqn:Hi; simpl in H; [|done].
  destruct (start_times !! i) as [s|] eqn:Hs; simpl in H; [|done].
  destruct et as [e|]; simpl in H; [|done].
  injection H as <-. eauto 10.
Qed.

(** Every record the loop yields was built by [emit] from some block. *)
Lemma loop_yields self video_id subtitles start_times end_times total r :
  forall rest idx st,
  r ∈ yields
        (loop self video_id subtitles start_times end_times total rest idx st) ->
  exists blk et, emit video_id subtitles start_times blk et = Ok r.
Proof.
  induction rest as [|subtitle rest IH]; intros idx st; simpl.
  - by intros ?%elem_of_nil.
  - repeat case_match; simpl; try (by intros ?%elem_of_nil).
    + intros [->|Hr]%elem_of_cons; eauto.
    + intros [->|Hr%elem_of_nil]%elem_of_cons; [eauto|done].
    + eauto.
Qed.

Lemma except_yields body handler r :
  r ∈ yields (except_AttributeError body handler) ->
  r ∈ yields body \/ r ∈ yields handler.
Proof.
  induction body as [|e|r' k IH]; simpl.
  - by intros ?%elem_of_nil.
  - destruct e; simpl; try (by intros ?%elem_of_nil). by right.
  - intros [->|Hr]%elem_of_cons.
    + left. apply elem_of_cons; by left.
    + destruct (IH Hr); [left; apply elem_of_cons|]; by right.
Qed.

Lemma _chunk_by_length_yields self video_id subtitles timestamps r :
  r ∈ yields (_chunk_by_length self video_id subtitles timestamps) ->
  r = degenerate video_id
  \/ exists lines sts blk et,
       mapM strip_split_len subtitles = Ok lines
       /\ emit video_id (lines.*1) sts blk et = Ok r.
Proof.
  intros [Hr|Hr]%except_yields.
  - right. unfold try_body in Hr.
    destruct (mapM strip_split_len subtitles) as [counted|] eqn:Hm;
      [|by apply elem_of_nil in Hr].
    destruct (zip_star timestamps) as [[sts ets]|];
      [|by apply elem_of_nil in Hr].
    apply loop_yields in Hr as (blk & et & Hr). eauto 10.
  - left. simpl in Hr. by apply list_elem_of_singleton in Hr.
Qed.

(** ** Malformed lines *)

Lemma mapM_strip_split_len_NaN (subtitles : list pyval) :
  PNaN ∈ subtitles -> mapM strip_split_len subtitles = Err AttributeError.
Proof.
  induction subtitles as [|v subtitles IH]; [by intros ?%elem_of_nil|].
  intros [<-|Hin]%elem_of_cons; [done|].
  destruct v; [|done]. simpl. by rewrite IH.
Qed.

Lemma mapM_strip_split_len_PStr (lines : list pystr) :
  mapM strip_split_len (PStr <$> lines)
  = Ok ((fun s => (s, len (split (strip s)))) <$> lines).
Proof.
  induction lines as [|s lines IH]; [done|].
  rewrite !fmap_cons. cbn [mapM strip_split_len]. by rewrite IH.
Qed.

Lemma _chunk_by_length_NaN self video_id subtitles timestamps :
  PNaN ∈ subtitles ->
  _chunk_by_length self video_id subtitles timestamps
  = Yield (degenerate video_id) Stop.
Proof.
  intros H. unfold _chunk_by_length, try_body.
  by rewrite mapM_strip_split_len_NaN.
Qed.

Lemma mapM_app {A B} (f : A -> result B) (l k : list A) (bs cs : list B) :
  mapM f l = Ok bs -> mapM f k = Ok cs -> mapM f (l ++ k) = Ok (bs ++ cs).
Proof.
  revert bs. induction l as [|a l IH]; intros bs; simpl.
  - by intros [= <-].
  - destruct (f a) as [b|]; simpl; [|done].
    destruct (mapM f l) as [bs'|]; simpl; [|done].
    intros [= <-] Hk. by rewrite (IH bs').
Qed.

(** ** The loop follows a run *)

Section LoopRun.
Variable self : Chunker.
Variable video_id : string.
Variable subtitles : list pystr.
Variables start_times end_times : list Z.
Variable total_length : Z.

Lemma segment_nil k : segment subtitles k k = [].
Proof.
  unfold segment. apply drop_ge. rewrite length_take. lia.
Qed.

Lemma segment_snoc j idx subtitle :
  (j <= idx)%nat -> subtitles !! idx = Some subtitle ->
  segment subtitles j idx ++ [subtitle] = segment subtitles j (S idx).
Proof.
  intros Hj Hidx. unfold segment.
  rewrite (take_S_r _ _ _ Hidx).
  rewrite drop_app_le; [done|].
  apply lookup_lt_Some in Hidx. rewrite length_take. lia.
Qed.

Lemma drop_cons_inv {A} (l : list A) idx x rest :
  x :: rest = drop idx l ->
  l !! idx = Some x /\ rest = drop (S idx) l.
Proof.
  revert idx. induction l as [|y l IH]; intros [|idx]; simpl; try done.
  - by intros [= -> ->].
  - apply IH.
Qed.

Lemma loop_run rest idx st j :
  rest = drop idx subtitles ->
  (j <= idx <= length subtitles)%nat ->
  st_block st = segment subtitles j idx ->
  exists blks,
    run video_id subtitles start_times end_times j idx blks
      (loop self video_id subtitles start_times end_times total_length
         rest idx st).
Proof.
  revert idx st j.
  induction rest as [|subtitle rest IH]; intros idx st j Hrest Hidx Hblk.
  - assert (idx = length subtitles) as ->.
    { apply (f_equal length) in Hrest. rewrite length_drop in Hrest.
      simpl in Hrest. lia. }
    exists []. constructor.
  - apply drop_cons_inv in Hrest as [Hl Hrest].
    pose proof (lookup_lt_Some _ _ _ Hl) as Hlt.
    cbn [loop]. rewrite Hblk, (segment_snoc _ _ _ (proj1 Hidx) Hl).
    destruct (_ && _).
    + edestruct (IH (S idx)
        {| st_block := []; st_length_of_block := 0;
           st_covered_length :=
             st_covered_length st + len (split (strip subtitle)) |}
        (S idx)) as [blks Hrun]; [done|lia|by rewrite segment_nil|].
      eexists. by apply (run_close _ _ _ _ _ _ _ _ Hlt Hrun).
    + destruct (_ <=? _).
      * eexists. by apply run_merge.
      * edestruct (IH (S idx)
          {| st_block := segment subtitles j (S idx);
             st_length_of_block :=
               st_length_of_block st + len (split (strip subtitle));
             st_covered_length :=
               st_covered_length st + len (split (strip subtitle)) |}
          j) as [blks Hrun]; [done|lia|done|].
        eexists. by apply run_skip.
Qed.
End LoopRun.

(** ** [index] *)

Lemma index_lookup (l : list pystr) k x :
  l !! k = Some x ->
  exists i, index x l = Some i /\ (i <= k)%nat /\ l !! i = Some x.
Proof.
  revert k. induction l as [|y l IH]; intros k Hk; [done|].
  simpl. destruct (decide (y = x)) as [->|Hne].
  - exists 0%nat. split_and!; [done|lia|done].
  - destruct k as [|k]; simpl in Hk; [congruence|].
    destruct (IH k Hk) as (i & -> & Hle & Hi).
    exists (S i). split_and!; [done|lia|done].
Qed.

Lemma index_NoDup (l : list pystr) k x :
  NoDup l -> l !! k = Some x -> index x l = Some k.
Proof.
  intros Hnd Hk. destruct (index_lookup l k x Hk) as (i & -> & _ & Hi).
  f_equal. by eapply NoDup_lookup.
Qed.

(** ** Errors a run can end in *)

Section RunErrors.
Variable video_id : string.
Variable subtitles : list pystr.
Variables start_times end_times : list Z.

Lemma head_segment j k extra :
  (j < k <= length subtitles)%nat ->
  head (segment subtitles j k ++ extra) = subtitles !! j.
Proof.
  intros Hjk. unfold segment. rewrite head_lookup.
  rewrite lookup_app_l by (rewrite length_drop, length_take; lia).
  rewrite lookup_drop, lookup_take_lt by lia.
  f_equal. lia.
Qed.

Lemma head_segment_is_Some j k extra :
  (j < k <= length subtitles)%nat ->
  exists first, head (segment subtitles j k ++ extra) = Some first
                /\ subtitles !! j = Some first.
Proof.
  intros Hjk. rewrite head_segment by done.
  destruct (lookup_lt_is_Some_2 subtitles j) as [first Hf]; [lia|].
  eauto.
Qed.

(** With the first line of the block found in [subtitles], only the two
    time lookups of a yield can fail. *)
Lemma emit_Err blk et first j e :
  head blk = Some first -> subtitles !! j = Some first ->
  emit video_id subtitles start_times blk et = Err e ->
  e = IndexError.
Proof.
  intros Hh Hj. unfold emit. rewrite Hh. simpl.
  destruct (index_lookup _ _ _ Hj) as (i & -> & _). simpl.
  destruct (start_times !! i); simpl; [|congruence].
  destruct et; simpl; congruence.
Qed.

Lemma emit_is_Ok blk et first j :
  head blk = Some first -> subtitles !! j = Some first ->
  (j < length start_times)%nat -> is_Some et ->
  exists r, emit video_id subtitles start_times blk et = Ok r.
Proof.
  intros Hh Hj Hlt [e ->]. unfold emit. rewrite Hh. simpl.
  destruct (index_lookup _ _ _ Hj) as (i & -> & Hle & _). simpl.
  destruct (lookup_lt_is_Some_2 start_times i) as [s ->]; [lia|].
  simpl. eauto.
Qed.

Lemma run_raised j idx blks g :
  run video_id subtitles start_times end_times j idx blks g ->
  (j <= idx)%nat ->
  raised g = None \/ raised g = Some IndexError.
Proof.
  induction 1 as [j|j idx blks g Hlt _ IH|j idx blks g Hlt _ IH|j idx Hlt];
    intros Hj.
  - by left.
  - apply IH. lia.
  - destruct (head_segment_is_Some j (S idx) []) as (first & Hh & Hf);
      [lia|]. rewrite (right_id_L [] (++)) in Hh.
    destruct (emit _ _ _ _ _) as [r|e] eqn:He; simpl.
    + apply IH. lia.
    + right. f_equal. by eapply emit_Err.
  - destruct (head_segment_is_Some j (S idx) (drop idx subtitles))
      as (first & Hh & Hf); [lia|].
    destruct (emit _ _ _ _ _) as [r|e] eqn:He; simpl.
    + by left.
    + right. f_equal. by eapply emit_Err.
Qed.

Lemma run_no_error j idx blks g :
  (length subtitles <= length start_times)%nat ->
  (length subtitles <= length end_times)%nat ->
  run video_id subtitles start_times end_times j idx blks g ->
  (j <= idx)%nat ->
  raised g = None.
Proof.
  intros Hs He.
  induction 1 as [j|j idx blks g Hlt _ IH|j idx blks g Hlt _ IH|j idx Hlt];
    intros Hj.
  - done.
  - apply IH. lia.
  - destruct (head_segment_is_Some j (S idx) []) as (first & Hh & Hf);
      [lia|]. rewrite (right_id_L [] (++)) in Hh.
    destruct (emit_is_Ok _ (end_times !! idx) _ _ Hh Hf) as [r ->];
      [lia|apply lookup_lt_is_Some_2; lia|].
    simpl. apply IH. lia.
  - destruct (head_segment_is_Some j (S idx) (drop idx subtitles))
      as (first & Hh & Hf); [lia|].
    destruct (emit_is_Ok _ (last end_times) _ _ Hh Hf) as [r ->];
      [lia| |done].
    apply last_is_Some. intros ->. simpl in He. lia.
Qed.
End RunErrors.

(** ** The three branches of one iteration *)

Section Branches.
Variable self : Chunker.
Variable video_id : string.
Variable subtitles : list pystr.
Variables start_times end_times : list Z.
Variable total_length : Z.

Local Abbreviation loop' := (loop self video_id subtitles start_times end_times
                     total_length).
Local Abbreviation emit' := (emit video_id subtitles start_times).

Variables (subtitle : pystr) (rest : list pystr) (idx : nat) (st : state).

Let n := len (split (strip subtitle)).
Let length := st_length_of_block st + n.
Let covered := st_covered_length st + n.

Lemma loop_close :
  expected_threshold self <= length ->
  min_tolerable_threshold self <= total_length - covered ->
  loop' (subtitle :: rest) idx st
  = emit_then (emit' (st_block st ++ [subtitle]) (end_times !! idx))
      (loop' rest (S idx)
         {| st_block := []; st_length_of_block := 0;
            st_covered_length := covered |}).
Proof.
  intros H1 H2. cbn [loop].
  apply Z.leb_le in H1, H2. subst length covered n.
  by rewrite H1, H2.
Qed.

Lemma loop_merge :
  length < expected_threshold self
  \/ total_length - covered < min_tolerable_threshold self ->
  total_length - covered <= min_tolerable_threshold self ->
  loop' (subtitle :: rest) idx st
  = emit_then
      (emit' ((st_block st ++ [subtitle]) ++ drop idx subtitles)
         (last end_times))
      Stop.
Proof.
  intros H1 H2. cbn [loop]. subst length covered n.
  apply Z.leb_le in H2. rewrite H2.
  destruct H1 as [H1|H1]; apply Z.leb_gt in H1; rewrite H1;
    by rewrite ?andb_false_r.
Qed.

Lemma loop_skip :
  length < expected_threshold self
  \/ total_length - covered < min_tolerable_threshold self ->
  min_tolerable_threshold self < total_length - covered ->
  loop' (subtitle :: rest) idx st
  = loop' rest (S idx)
      {| st_block := st_block st ++ [subtitle];
         st_length_of_block := length; st_covered_length := covered |}.
Proof.
  intros H1 H2. cbn [loop]. subst length covered n.
  apply Z.leb_gt in H2. rewrite H2.
  destruct H1 as [H1|H1]; apply Z.leb_gt in H1; rewrite H1;
    by rewrite ?andb_false_r.
Qed.
End Branches.

(** When the tail-merge fires at the line in position [idx], the block
    handed to [pack] is the open block, that line, and then
    [subtitles[idx:]], which starts with that same line again. *)
Lemma loop_merge_block
    self video_id subtitles start_times end_times total_length
    subtitle rest idx st :
  subtitle :: rest = drop idx subtitles ->
  st_length_of_block st + len (split (strip subtitle))
    < expected_threshold self
  \/ total_length - (st_covered_length st + len (split (strip subtitle)))
     < min_tolerable_threshold self ->
  total_length - (st_covered_length st + len (split (strip subtitle)))
    <= min_tolerable_threshold self ->
  loop self video_id subtitles start_times end_times total_length
    (subtitle :: rest) idx st
  = emit_then
      (emit video_id subtitles start_times
         (st_block st ++ [subtitle; subtitle] ++ rest) (last end_times))
      Stop.
Proof.
  intros Hrest H1 H2. rewrite loop_merge by done.
  by rewrite <- Hrest, <- (assoc_L (++)).
Qed.

(** ** The generator on lines that are all text *)

Lemma pyval_cases (subtitles : list pyval) :
  PNaN ∈ subtitles \/ exists lines, subtitles = PStr <$> lines.
Proof.
  induction subtitles as [|v subtitles [IH|[lines ->]]].
  - right. by exists [].
  - left. by apply elem_of_cons; right.
  - destruct v as [s|].
    + right. by exists (s :: lines).
    + left. by apply elem_of_cons; left.
Qed.

Lemma counted_fst (lines : list pystr) (f : pystr -> Z) :
  ((fun s => (s, f s)) <$> lines).*1 = lines.
Proof. induction lines; [done|]. rewrite !fmap_cons. simpl. by f_equal. Qed.

Lemma counted_snd (lines : list pystr) (f : pystr -> Z) :
  ((fun s => (s, f s)) <$> lines).*2 = f <$> lines.
Proof. induction lines; [done|]. rewrite !fmap_cons. simpl. by f_equal. Qed.

Lemma try_body_PStr self video_id lines timestamps :
  try_body self video_id (PStr <$> lines) timestamps
  = match zip_star timestamps with
    | Err e => Raise e
    | Ok (start_times, end_times) =>
        loop self video_id lines start_times end_times (word_total lines)
          lines 0 init_state
    end.
Proof.
  unfold try_body. rewrite mapM_strip_split_len_PStr.
  by rewrite counted_fst, counted_snd.
Qed.

Lemma except_other body handler :
  raised body <> Some AttributeError ->
  except_AttributeError body handler = body.
Proof.
  induction body as [|e|r k IH]; simpl; [done| |].
  - by destruct e.
  - intros H. by rewrite IH.
Qed.

Lemma loop_run_init self video_id lines start_times end_times total_length :
  exists blks,
    run video_id lines start_times end_times 0 0 blks
      (loop self video_id lines start_times end_times total_length
         lines 0 init_state).
Proof.
  apply loop_run with (j := 0%nat); [done|lia|].
  simpl. by rewrite segment_nil.
Qed.

(** With text lines and at least one timestamp the [except] clause is
    never entered: the generator is the loop. *)
Lemma _chunk_by_length_PStr self video_id lines p timestamps :
  _chunk_by_length self video_id (PStr <$> lines) (p :: timestamps)
  = loop self video_id lines ((p :: timestamps).*1) ((p :: timestamps).*2)
      (word_total lines) lines 0 init_state.
Proof.
  unfold _chunk_by_length. rewrite try_body_PStr.
  cbn [zip_star]. apply except_other.
  destruct (loop_run_init self video_id lines ((p :: timestamps).*1)
              ((p :: timestamps).*2) (word_total lines)) as [blks Hrun].
  destruct (run_raised _ _ _ _ _ _ _ _ Hrun) as [-> | ->]; [lia|done..].
Qed.

Lemma _chunk_by_length_no_timestamps self video_id lines :
  _chunk_by_length self video_id (PStr <$> lines) [] = Raise ValueError.
Proof. unfold _chunk_by_length. by rewrite try_body_PStr. Qed.

(** ** Claims about malformed lines and the unimplemented strategy *)

Lemma frame_of_length self video_id subtitles timestamps :
  chunk_by self = "length"%string ->
  frame_of self (video_id, subtitles, timestamps)
  = blocks ← list_of_gen
               (_chunk_by_length self video_id subtitles timestamps);
    Ok (make_df blocks).
Proof. unfold frame_of. by intros ->. Qed.

Lemma pd_concat_app_cons (fs1 : list DataFrame) f fs2 :
  pd_concat (fs1 ++ f :: fs2) = Ok (concat fs1 ++ f ++ concat fs2).
Proof.
  unfold pd_concat. rewrite concat_app. simpl. by destruct fs1.
Qed.

Lemma index_df_rows (df : DataFrame) :
  df <> [] -> index_df df = Ok (to_row <$> df).
Proof. by destruct df. Qed.

(** C3: an item with a line that is not text yields exactly one
    degenerate record (all four fields NaN), no partial chunk and no
    exception; in a batch whose other items segment without error the table
    is built and the item's only row is that record. *)
Theorem C3_malformed_item_fallback self video_id subtitles timestamps :
  PNaN ∈ subtitles ->
  _chunk_by_length self video_id subtitles timestamps
  = Yield (pack video_id NaN NaN NaN NaN) Stop
  /\ (chunk_by self = "length"%string ->
      forall before after fs1 fs2,
        mapM (frame_of self) before = Ok fs1 ->
        mapM (frame_of self) after = Ok fs2 ->
        get_chunks self (before ++ (video_id, subtitles, timestamps) :: after)
        = Ok (to_row <$>
                concat fs1 ++ [(0%nat, degenerate video_id)] ++ concat fs2)).
Proof.
  intros HNaN. split; [by apply _chunk_by_length_NaN|].
  intros Hlen before after fs1 fs2 H1 H2.
  unfold get_chunks.
  rewrite (mapM_app _ before (_ :: after) fs1
             ([(0%nat, degenerate video_id)] :: fs2) H1).
  - cbn [mbind result_bind]. rewrite pd_concat_app_cons.
    cbn [mbind result_bind].
    apply index_df_rows. by destruct (concat fs1).
  - cbn [mapM]. rewrite frame_of_length, _chunk_by_length_NaN, H2 by done.
    done.
Qed.

(** C5: on every yielded record that is not degenerate, the size field is
    the number of words of the text field split on whitespace, the text
    being the space-joined lines of the block. *)
Theorem C5_size_is_word_count self video_id subtitles timestamps r text :
  r ∈ yields (_chunk_by_length self video_id subtitles timestamps) ->
  block r = Val text ->
  length_of_block r = Val (len (split text))
  /\ exists lines,
       text = join [SPACE] lines
       /\ len (split text) = sum ((fun line => len (split line)) <$> lines).
Proof.
  intros Hr Ht.
  apply _chunk_by_length_yields in Hr
    as [->|(lines & sts & blk & et & _ & He)].
  - done.
  - apply emit_Ok in He as (? & ? & ? & ? & _ & _ & _ & _ & ->).
    simpl in *. injection Ht as <-.
    rewrite len_split_join. eauto.
Qed.

(** C9: under the time strategy every call of the segmenter raises
    NotImplementedError, the batch raises it at its first item, and no
    batch ever returns a table. *)
Theorem C9_time_strategy_not_implemented e m video_id subtitles timestamps
    scrapped_df :
  _chunk_by_time (time_policy e m) video_id subtitles timestamps
  = Err NotImplementedError
  /\ frame_of (time_policy e m) (video_id, subtitles, timestamps)
     = Err NotImplementedError
  /\ get_chunks (time_policy e m)
       ((video_id, subtitles, timestamps) :: scrapped_df)
     = Err NotImplementedError
  /\ forall T, get_chunks (time_policy e m) scrapped_df <> Ok T.
Proof.
  split_and!; try done.
  intros T. destruct scrapped_df as [|[[v s] t] items]; done.
Qed.

(** C10: for an item with no line and no interval the generator yields
    nothing, neither a chunk nor the degenerate record: unpacking the
    empty timestamps raises ValueError, which the AttributeError handler
    lets through to the caller. *)
Theorem C10_empty_item_raises e m video_id scrapped_df :
  _chunk_by_length (length_policy e m) video_id [] [] = Raise ValueError
  /\ yields (_chunk_by_length (length_policy e m) video_id [] []) = []
  /\ list_of_gen (_chunk_by_length (length_policy e m) video_id [] [])
     = Err ValueError
  /\ get_chunks (length_policy e m) ((video_id, [], []) :: scrapped_df)
     = Err ValueError.
Proof. done. Qed.

Lemma C3_malformed_item_fallback_witness :
  _chunk_by_length (length_policy 225 150) "v" [line "so"; PNaN] [(0, 1)]
  = Yield (pack "v" NaN NaN NaN NaN) Stop
  /\ get_chunks (length_policy 225 150)
       [("u"%string, [line "what is life"], [(0, 4)]);
        ("v"%string, [line "so"; PNaN], [(0, 1)])]
     = Ok (to_row <$>
             [(0%nat, pack "u" (Val (str_of "what is life what is life"))
                        (Val 6) (Val 0) (Val 4));
              (0%nat, degenerate "v")]).
Proof.
  destruct (C3_malformed_item_fallback (length_policy 225 150) "v"
              [line "so"; PNaN] [(0, 1)]) as [H1 H2].
  - repeat constructor.
  - split; [exact H1|].
    apply (H2 eq_refl [("u"%string, [line "what is life"], [(0, 4)])] []
             [[(0%nat, pack "u" (Val (str_of "what is life what is life"))
                         (Val 6) (Val 0) (Val 4))]] []);
      vm_compute; reflexivity.
Defined.

Lemma C5_size_is_word_count_witness :
  length_of_block
    (pack "v" (Val (str_of "hello there hello there  world")) (Val 5)
       (Val 0) (Val 2))
  = Val (len (split (str_of "hello there hello there  world"))).
Proof.
  refine (proj1 (C5_size_is_word_count (length_policy 10 5) "v"
                   [line "hello there"; line " world"] [(0, 1); (1, 2)]
                   (pack "v" (Val (str_of "hello there hello there  world"))
                      (Val 5) (Val 0) (Val 2))
                   (str_of "hello there hello there  world") _ eq_refl)).
  vm_compute. left.
Defined.

(** ** Lines and intervals of different lengths *)

(** C7, as the code has it: the two lengths are never compared. With a
    line that is not text the degenerate record is yielded; with text lines
    and no interval at all, unpacking raises ValueError before any line is
    visited; with more intervals than lines the generator finishes without
    an error; otherwise it finishes without an error or stops in an
    IndexError at a yield. *)
Theorem C7_lengths_never_compared self video_id subtitles timestamps :
  length subtitles <> length timestamps ->
  let g := _chunk_by_length self video_id subtitles timestamps in
  (PNaN ∈ subtitles -> g = Yield (degenerate video_id) Stop)
  /\ (PNaN ∉ subtitles -> timestamps = [] -> g = Raise ValueError)
  /\ ((length subtitles < length timestamps)%nat -> raised g = None)
  /\ (timestamps <> [] ->
      raised g = None \/ raised g = Some IndexError).
Proof.
  intros _ g. subst g.
  destruct (pyval_cases subtitles) as [HNaN|[lines ->]].
  { rewrite _chunk_by_length_NaN by done. split_and!; try done.
    by left. }
  split_and!.
  - apply _chunk_by_length_NaN.
  - intros _ ->. apply _chunk_by_length_no_timestamps.
  - destruct timestamps as [|p timestamps]; [simpl; lia|].
    rewrite length_fmap. intros Hlt.
    rewrite _chunk_by_length_PStr.
    destruct (loop_run_init self video_id lines ((p :: timestamps).*1)
                ((p :: timestamps).*2) (word_total lines)) as [blks Hrun].
    eapply run_no_error; [..|exact Hrun|lia];
      rewrite length_fmap; lia.
  - destruct timestamps as [|p timestamps]; [done|]. intros _.
    rewrite _chunk_by_length_PStr.
    destruct (loop_run_init self video_id lines ((p :: timestamps).*1)
                ((p :: timestamps).*2) (word_total lines)) as [blks Hrun].
    eapply run_raised; [exact Hrun|lia].
Qed.

Lemma C7_lengths_never_compared_witness :
  raised (_chunk_by_length (length_policy 10 5) "v"
            [line "a"; line "b"] [(0, 1); (1, 2); (2, 3)]) = None.
Proof.
  refine (proj1 (proj2 (proj2 (C7_lengths_never_compared
            (length_policy 10 5) "v" [line "a"; line "b"]
            [(0, 1); (1, 2); (2, 3)] _))) _); simpl; lia.
Defined.

(** C7 as stated fails: two lines with one interval are segmented into a
    chunk, and no error is raised at all. *)
Lemma C7_counterexample :
  length [line "a"; line "b"] <> length [(0, 1)]
  /\ _chunk_by_length (length_policy 10 5) "v" [line "a"; line "b"] [(0, 1)]
     = Yield (pack "v" (Val (str_of "a a b")) (Val 3) (Val 0) (Val 1)) Stop
  /\ ~ rejected_up_front
        (_chunk_by_length (length_policy 10 5) "v" [line "a"; line "b"]
           [(0, 1)]).
Proof.
  split_and!; [simpl; lia|done|]. by intros [e He].
Qed.

(** ** The batch table *)

Lemma yields_videoId self video_id subtitles timestamps r :
  r ∈ yields (_chunk_by_length self video_id subtitles timestamps) ->
  videoId r = video_id.
Proof.
  intros Hr.
  apply _chunk_by_length_yields in Hr
    as [->|(lines & sts & blk & et & _ & He)]; [done|].
  by apply emit_Ok in He as (? & ? & ? & ? & _ & _ & _ & _ & ->).
Qed.

Lemma frame_of_Ok self it :
  chunk_by self = "length"%string ->
  raised (segment_item self it) = None ->
  frame_of self it = Ok (make_df (yields (segment_item self it))).
Proof.
  destruct it as [[video_id subtitles] timestamps]. intros Hlen Hr.
  rewrite frame_of_length by done. unfold list_of_gen, segment_item in *.
  simpl in Hr. by rewrite Hr.
Qed.

Lemma to_row_make_df self it :
  to_row <$> make_df (yields (segment_item self it)) = item_rows self it.
Proof.
  unfold make_df, item_rows. rewrite fmap_imap.
  apply imap_ext. intros i r Hr. unfold to_row. simpl.
  apply list_elem_of_lookup_2 in Hr.
  by rewrite (yields_videoId _ _ _ _ _ Hr).
Qed.

Lemma mapM_frame_of self scrapped_df :
  chunk_by self = "length"%string ->
  Forall (fun it => raised (segment_item self it) = None) scrapped_df ->
  mapM (frame_of self) scrapped_df
  = Ok ((fun it => make_df (yields (segment_item self it))) <$> scrapped_df).
Proof.
  intros Hlen. induction 1 as [|it items Hit _ IH]; [done|].
  cbn [mapM]. by rewrite frame_of_Ok, IH.
Qed.

Lemma to_row_concat self (scrapped_df : list item) :
  to_row <$>
    concat ((fun it => make_df (yields (segment_item self it)))
              <$> scrapped_df)
  = chunked_table self scrapped_df.
Proof.
  unfold chunked_table. induction scrapped_df as [|it items IH]; [done|].
  rewrite fmap_cons, bind_cons. cbn [concat].
  by rewrite fmap_app, to_row_make_df, IH.
Qed.

(** C8, as the code has it: under the length strategy, when every item
    segments without an error and at least one record is yielded overall,
    the table is the concatenation in item order of each item's records in
    emission order, each keyed by the item's id and its 0-based rank within
    the item. *)
Theorem C8_batch_assembly self scrapped_df :
  chunk_by self = "length"%string ->
  Forall (fun it => raised (segment_item self it) = None) scrapped_df ->
  Exists (fun it => yields (segment_item self it) <> []) scrapped_df ->
  get_chunks self scrapped_df = Ok (chunked_table self scrapped_df).
Proof.
  intros Hlen Hok Hex. unfold get_chunks.
  rewrite mapM_frame_of by done. cbn [mbind result_bind].
  assert (concat ((fun it => make_df (yields (segment_item self it)))
                    <$> scrapped_df) <> []) as Hne.
  { clear Hok. induction Hex as [it items Hit|it items _ IH].
    - rewrite fmap_cons. cbn [concat]. unfold make_df.
      destruct (yields (segment_item self it)); done.
    - rewrite fmap_cons. cbn [concat].
      intros [_ ?]%app_eq_nil. by apply IH. }
  unfold pd_concat. destruct scrapped_df as [|it items].
  { by apply Exists_nil in Hex. }
  rewrite fmap_cons. cbn [mbind result_bind].
  rewrite index_df_rows by done.
  by rewrite <- to_row_concat.
Qed.

Lemma C8_batch_assembly_witness :
  get_chunks (length_policy 2 1)
    [("u"%string, [line "a b"; line "c"; line "d e"],
      [(0, 1); (1, 2); (2, 3)]);
     ("v"%string, [PNaN], [(0, 0)])]
  = Ok [ {| key := ("u"%string, 0%nat); row_block := Val (str_of "a b");
            row_length_of_block := Val 2;
            row_start_time := Val 0; row_end_time := Val 1 |};
         {| key := ("u"%string, 1%nat);
            row_block := Val (str_of "c d e d e");
            row_length_of_block := Val 5;
            row_start_time := Val 1; row_end_time := Val 3 |};
         {| key := ("v"%string, 0%nat); row_block := NaN;
            row_length_of_block := NaN;
            row_start_time := NaN; row_end_time := NaN |} ].
Proof.
  apply (C8_batch_assembly (length_policy 2 1)
    [("u"%string, [line "a b"; line "c"; line "d e"],
      [(0, 1); (1, 2); (2, 3)]);
     ("v"%string, [PNaN], [(0, 0)])]).
  - reflexivity.
  - repeat constructor.
  - left. vm_compute. discriminate.
Defined.

(** C8 as stated fails on the empty collection: concatenating no frame
    raises ValueError, so no table is returned. *)
Lemma C8_counterexample :
  get_chunks (length_policy 225 150) [] = Err ValueError
  /\ ~ assembles (length_policy 225 150) [].
Proof. split; [done|]. unfold assembles. by intros [=]. Qed.

(** ** The worked example *)

Lemma index_head (x : pystr) (l : list pystr) : index x (x :: l) = Some 0%nat.
Proof. simpl. by rewrite decide_True. Qed.

Lemma ten_lines (ws : list pystr) :
  length ws = 10%nat ->
  exists w0 w1 w2 w3 w4 w5 w6 w7 w8 w9,
    ws = [w0; w1; w2; w3; w4; w5; w6; w7; w8; w9].
Proof.
  intros H.
  do 10 (destruct ws as [|? ws]; [done|]).
  destruct ws; [|done]. eauto 12.
Qed.

(** Ten one-word lines with intervals (i, i+1) under expected=10 and
    min_tolerable=5. The total is 10; no branch fires on lines 0 to 3; at
    line 4 the covered length is 5 and the remainder 5, where the
    tail-merge branch is taken; the generator yields exactly one chunk,
    from time 0 to time 10, whose block holds every line of the item (and
    line 4 a second time, which makes its size 11). *)
Theorem worked_example_trace video_id (ws : list pystr) :
  length ws = 10%nat ->
  Forall (fun w => len (split (strip w)) = 1) ws ->
  let self := length_policy 10 5 in
  let start_times := (unit_intervals 10).*1 in
  let end_times := (unit_intervals 10).*2 in
  let st4 := {| st_block := take 4 ws; st_length_of_block := 4;
                st_covered_length := 4 |} in
  let merged := take 5 ws ++ drop 4 ws in
  word_total ws = 10
  /\ loop self video_id ws start_times end_times 10 ws 0 init_state
     = loop self video_id ws start_times end_times 10 (drop 4 ws) 4 st4
  /\ (forall w4, ws !! 4%nat = Some w4 ->
        st_covered_length st4 + len (split (strip w4)) = 5
        /\ word_total ws - 5 = 5
        /\ loop self video_id ws start_times end_times 10 (drop 4 ws) 4 st4
           = emit_then
               (emit video_id ws start_times merged (last end_times)) Stop)
  /\ _chunk_by_length self video_id (PStr <$> ws) (unit_intervals 10)
     = Yield (pack video_id (Val (join [SPACE] merged)) (Val 11)
                (Val 0) (Val 10)) Stop
  /\ (forall w, w ∈ ws -> w ∈ merged).
Proof.
  intros Hlen Hws.
  destruct (ten_lines ws Hlen)
    as (w0 & w1 & w2 & w3 & w4 & w5 & w6 & w7 & w8 & w9 & ->).
  repeat match goal with
         | H : Forall _ (_ :: _) |- _ =>
             apply Forall_cons in H as [? H]
         end.
  clear Hws Hlen.
  intros self start_times end_times st4 merged.
  assert (word_total [w0; w1; w2; w3; w4; w5; w6; w7; w8; w9] = 10) as Htot.
  { unfold word_total. cbn [fmap list_fmap sum foldr].
    repeat match goal with H : len _ = 1 |- _ => rewrite H; clear H end.
    done. }
  assert (loop self video_id [w0; w1; w2; w3; w4; w5; w6; w7; w8; w9]
            start_times end_times 10
            [w0; w1; w2; w3; w4; w5; w6; w7; w8; w9] 0 init_state
          = loop self video_id [w0; w1; w2; w3; w4; w5; w6; w7; w8; w9]
              start_times end_times 10 [w4; w5; w6; w7; w8; w9] 4 st4)
    as Hskip.
  { do 4 (rewrite loop_skip;
          [|cbn [st_length_of_block st_covered_length init_state];
            repeat match goal with H : len _ = 1 |- _ => rewrite H end;
            simpl; lia..]).
    cbn [st_length_of_block st_covered_length st_block init_state].
    repeat match goal with H : len _ = 1 |- _ => rewrite H end.
    done. }
  assert (loop self video_id [w0; w1; w2; w3; w4; w5; w6; w7; w8; w9]
            start_times end_times 10 [w4; w5; w6; w7; w8; w9] 4 st4
          = emit_then
              (emit video_id [w0; w1; w2; w3; w4; w5; w6; w7; w8; w9]
                 start_times merged (last end_times)) Stop)
    as Hmerge.
  { rewrite loop_merge;
      [done|
       cbn [st_length_of_block st_covered_length st4];
       repeat match goal with H : len _ = 1 |- _ => rewrite H end;
       simpl; lia..]. }
  split_and!.
  - done.
  - done.
  - intros w [= <-]. split_and!; [|lia|done].
    cbn [st_covered_length st4].
    repeat match goal with H : len _ = 1 |- _ => rewrite H end. done.
  - change (unit_intervals 10)
      with ((0, 1) :: ((fun i => (Z.of_nat i, Z.of_nat i + 1)) <$> seq 1 9)).
    rewrite _chunk_by_length_PStr, Htot.
    change (((0, 1) :: ((fun i => (Z.of_nat i, Z.of_nat i + 1)) <$> seq 1 9)).*1)
      with start_times.
    change (((0, 1) :: ((fun i => (Z.of_nat i, Z.of_nat i + 1)) <$> seq 1 9)).*2)
      with end_times.
    rewrite Hskip, Hmerge.
    unfold emit. cbn [merged take drop app head or_raise mbind result_bind].
    rewrite index_head. cbn [or_raise mbind result_bind].
    cbn [fmap list_fmap sum foldr].
    repeat match goal with
           | H : len (split (strip _)) = 1 |- _ =>
               rewrite split_strip in H; rewrite H; clear H
           end.
    done.
  - intros w Hw. unfold merged. cbn [take drop app].
    rewrite !elem_of_cons in Hw. rewrite !elem_of_cons. tauto.
Qed.

Lemma worked_example_trace_witness :
  _chunk_by_length (length_policy 10 5) "v"
    (PStr <$> replicate 10 (str_of "om")) (unit_intervals 10)
  = Yield (pack "v" (Val (str_of "om om om om om om om om om om om"))
             (Val 11) (Val 0) (Val 10)) Stop.
Proof.
  refine (proj1 (proj2 (proj2 (proj2
            (worked_example_trace "v" (replicate 10 (str_of "om")) _ _))))).
  - reflexivity.
  - repeat constructor.
Defined.

(** ** Where the code departs from the stated behaviour *)

(** C1: with expected=10 and min_tolerable=5 the tail-merge fires on the
    first of the two lines; the block handed to [pack] is that line
    followed by [subtitles[0:]], so the line is there twice: the text has
    three words where the two lines have two. *)
Theorem C1_tail_merge_repeats_line :
  _chunk_by_length (length_policy 10 5) "v"
    [line "hello"; line "world"] [(0, 1); (1, 2)]
  = Yield (pack "v" (Val (str_of "hello hello world")) (Val 3)
             (Val 0) (Val 2)) Stop
  /\ str_of "hello hello world"
     <> join [SPACE] [str_of "hello"; str_of "world"].
Proof. split; [reflexivity|discriminate]. Qed.

(** C2: a single one-word line comes out as a two-word chunk, so the lines
    of the chunks are not the lines of the item; and under a negative
    min_tolerable threshold the trailing line "c" is in no chunk. *)
Theorem C2_lines_not_conserved :
  _chunk_by_length (length_policy 10 5) "v" [line "a"] [(0, 1)]
  = Yield (pack "v" (Val (str_of "a a")) (Val 2) (Val 0) (Val 1)) Stop
  /\ word_total [str_of "a"] = 1
  /\ _chunk_by_length (length_policy 2 (-1)) "v"
       [line "a"; line "b"; line "c"] [(0, 1); (1, 2); (2, 3)]
     = Yield (pack "v" (Val (str_of "a b")) (Val 2) (Val 0) (Val 2)) Stop.
Proof. split_and!; reflexivity. Qed.

(** C4: on the ten one-word lines a to j with intervals (i, i+1), under
    expected=10 and min_tolerable=5, the one chunk yielded runs from 0 to
    10 but is not the ten lines: the tail-merge at line 4 puts line 4 in
    twice, so its text has eleven words where total_length is 10. *)
Theorem C4_example_chunk_has_eleven_lines :
  _chunk_by_length (length_policy 10 5) "v"
    [line "a"; line "b"; line "c"; line "d"; line "e"; line "f"; line "g";
     line "h"; line "i"; line "j"] (unit_intervals 10)
  = Yield (pack "v" (Val (str_of "a b c d e e f g h i j")) (Val 11)
             (Val 0) (Val 10)) Stop
  /\ word_total
       [str_of "a"; str_of "b"; str_of "c"; str_of "d"; str_of "e";
        str_of "f"; str_of "g"; str_of "h"; str_of "i"; str_of "j"] = 10
  /\ join [SPACE]
       [str_of "a"; str_of "b"; str_of "c"; str_of "d"; str_of "e";
        str_of "f"; str_of "g"; str_of "h"; str_of "i"; str_of "j"]
     = str_of "a b c d e f g h i j"
  /\ str_of "a b c d e e f g h i j" <> str_of "a b c d e f g h i j".
Proof. split_and!; [reflexivity..|discriminate]. Qed.

(** C6: with lines a, b, a, b, c on well-formed increasing intervals the
    second chunk is made of lines 2 and 3, yet its start_time is the start
    of line 0, found by searching for the text "a": it lies before the
    end_time of the first chunk. *)
Theorem C6_start_time_by_text_lookup :
  yields (_chunk_by_length (length_policy 2 1) "v"
            [line "a"; line "b"; line "a"; line "b"; line "c"]
            [(0, 1); (1, 2); (2, 3); (3, 4); (4, 5)])
  = [pack "v" (Val (str_of "a b")) (Val 2) (Val 0) (Val 2);
     pack "v" (Val (str_of "a b")) (Val 2) (Val 0) (Val 4);
     pack "v" (Val (str_of "c c")) (Val 2) (Val 4) (Val 5)].
Proof. reflexivity. Qed.

(** ** Which lines reach the chunks *)

Section Conservation.
Variable video_id : string.
Variable subtitles : list pystr.
Variables start_times end_times : list Z.

Lemma segment_drop j k :
  (j <= k <= length subtitles)%nat ->
  segment subtitles j k ++ drop k subtitles = drop j subtitles.
Proof.
  intros Hjk. unfold segment.
  transitivity (drop j (take k subtitles ++ drop k subtitles));
    [|by rewrite take_drop].
  rewrite drop_app_le; [done|]. rewrite length_take. lia.
Qed.

Lemma segment_app j k m :
  (j <= k <= m)%nat -> (m <= length subtitles)%nat ->
  segment subtitles j k ++ segment subtitles k m = segment subtitles j m.
Proof.
  intros Hjk Hm. unfold segment.
  transitivity (drop j (take k (take m subtitles)
                        ++ drop k (take m subtitles)));
    [|by rewrite take_drop].
  rewrite take_take, Nat.min_l by lia.
  rewrite drop_app_le; [done|]. rewrite length_take. lia.
Qed.

(** The records of an error-free run carry the texts of its blocks. *)
Lemma run_yields_blocks j idx blks g :
  run video_id subtitles start_times end_times j idx blks g ->
  raised g = None ->
  Forall2 (fun r blk => block r = Val (join [SPACE] blk)) (yields g) blks.
Proof.
  induction 1 as [j|j idx blks g Hlt _ IH|j idx blks g Hlt _ IH|j idx Hlt].
  - constructor.
  - done.
  - destruct (emit _ _ _ _ _) as [r|e] eqn:He; simpl; [|done].
    intros Hg. constructor; [|by apply IH].
    by apply emit_Ok in He as (? & ? & ? & ? & _ & _ & _ & _ & ->).
  - destruct (emit _ _ _ _ _) as [r|e] eqn:He; simpl; [|done].
    intros _. constructor; [|constructor].
    by apply emit_Ok in He as (? & ? & ? & ? & _ & _ & _ & _ & ->).
Qed.

(** The blocks of a run, one after the other, are the lines from the start
    of the open block on, short of a dropped tail; or, when the run ends in
    a tail-merge at line [i], those lines with line [i] twice. *)
Lemma run_blocks j idx blks g :
  run video_id subtitles start_times end_times j idx blks g ->
  (j <= idx)%nat ->
  (exists dropped, concat blks ++ dropped = drop j subtitles)
  \/ (exists i, (idx <= i < length subtitles)%nat
               /\ concat blks
                  = segment subtitles j (S i) ++ drop i subtitles).
Proof.
  induction 1 as [j|j idx blks g Hlt _ IH|j idx blks g Hlt _ IH|j idx Hlt];
    intros Hj.
  - left. by exists (drop j subtitles).
  - destruct IH as [IH|(i & Hi & IH)]; [lia|by left|].
    right. exists i. split; [lia|done].
  - destruct IH as [[dropped IH]|(i & Hi & IH)]; [lia| |].
    + left. exists dropped. cbn [concat].
      rewrite <- (assoc_L (++)), IH. apply segment_drop. lia.
    + right. exists i. split; [lia|]. cbn [concat].
      rewrite IH, (assoc_L (++)). f_equal. apply segment_app; lia.
  - right. exists idx. split; [lia|]. simpl. by rewrite (right_id_L [] (++)).
Qed.
End Conservation.

(** For an item of text lines whose segmentation ends without an error,
    the chunk texts are the space-joined blocks of a list [blks] whose
    concatenation is the item's lines short of a dropped tail, or the
    item's lines with the line of the tail-merge repeated. *)
Lemma chunk_lines self video_id lines p timestamps :
  let g := _chunk_by_length self video_id (PStr <$> lines) (p :: timestamps) in
  raised g = None ->
  exists blks,
    Forall2 (fun r blk => block r = Val (join [SPACE] blk)) (yields g) blks
    /\ ((exists dropped, concat blks ++ dropped = lines)
        \/ (exists i, (i < length lines)%nat
                     /\ concat blks = take (S i) lines ++ drop i lines)).
Proof.
  intros g Hg. subst g. rewrite _chunk_by_length_PStr in *.
  destruct (loop_run_init self video_id lines ((p :: timestamps).*1)
              ((p :: timestamps).*2) (word_total lines)) as [blks Hrun].
  exists blks. split; [by eapply run_yields_blocks|].
  destruct (run_blocks _ _ _ _ _ _ _ _ Hrun) as [H|(i & Hi & H)];
    [lia|by left|].
  right. exists i. split; [lia|done].
Qed.

(** ** Temporal order when no line text repeats *)

Lemma well_formed_le (timestamps : list (Z * Z)) :
  well_formed timestamps ->
  forall d i p q,
    timestamps !! i = Some p -> timestamps !! (i + d)%nat = Some q ->
    p.1 <= q.1 /\ p.2 <= q.2 /\ p.1 <= q.2.
Proof.
  intros [Hse Hnext]. induction d as [|d IH]; intros i p q Hp Hq.
  - rewrite Nat.add_0_r in Hq. assert (p = q) as <- by congruence.
    specialize (Hse _ _ Hp). lia.
  - destruct (lookup_lt_is_Some_2 timestamps (i + d)) as [m Hm].
    { apply lookup_lt_Some in Hq. lia. }
    destruct (IH _ _ _ Hp Hm) as (H1 & H2 & H3).
    rewrite Nat.add_succ_r in Hq.
    specialize (Hnext _ _ _ Hm Hq). specialize (Hse _ _ Hq). lia.
Qed.

Section Ordered.
Variable video_id : string.
Variable subtitles : list pystr.
Variable timestamps : list (Z * Z).
Hypothesis Hdistinct : NoDup subtitles.
Hypothesis Hlength : length timestamps = length subtitles.
Hypothesis Hwf : well_formed timestamps.

Lemma emit_times j blk et r :
  (j < length subtitles)%nat ->
  head blk = subtitles !! j ->
  emit video_id subtitles (timestamps.*1) blk et = Ok r ->
  exists p e,
    timestamps !! j = Some p /\ et = Some e
    /\ start_time r = Val p.1 /\ end_time r = Val e.
Proof.
  intros Hj Hh He.
  apply emit_Ok in He as (first & i & s & e & Hf & Hi & Hs & -> & ->).
  rewrite Hh in Hf.
  rewrite (index_NoDup _ _ _ Hdistinct Hf) in Hi. injection Hi as <-.
  rewrite list_lookup_fmap in Hs.
  destruct (timestamps !! j) as [p|]; [|done].
  injection Hs as <-. eauto 10.
Qed.

Lemma run_ordered j idx blks g :
  run video_id subtitles (timestamps.*1) (timestamps.*2) j idx blks g ->
  (j <= idx)%nat ->
  forall lo,
    (forall p, timestamps !! j = Some p -> lo <= p.1) ->
    ordered_from lo (yields g).
Proof.
  induction 1 as [j|j idx blks g Hlt _ IH|j idx blks g Hlt _ IH|j idx Hlt];
    intros Hj lo Hlo.
  - done.
  - apply IH; [lia|done].
  - destruct (emit _ _ _ _ _) as [r|e] eqn:He; simpl; [|done].
    apply (emit_times j) in He as (p & e & Hp & He & -> & ->); [|lia|].
    2:{ rewrite <- (head_segment _ j (S idx) []) by lia.
        by rewrite (right_id_L [] (++)). }
    rewrite list_lookup_fmap in He.
    destruct (timestamps !! idx) as [q|] eqn:Hq; [|done].
    injection He as <-.
    exists p.1, q.2. split_and!; [done|done|by apply Hlo| |].
    + apply (well_formed_le _ Hwf (idx - j) j); [done|].
      by replace (j + (idx - j))%nat with idx by lia.
    + apply IH; [lia|]. intros q' Hq'. by apply (proj2 Hwf idx).
  - destruct (emit _ _ _ _ _) as [r|e] eqn:He; simpl; [|done].
    apply (emit_times j) in He as (p & e & Hp & He & -> & ->); [|lia|].
    2:{ by rewrite head_segment by lia. }
    rewrite last_lookup, list_lookup_fmap, length_fmap in He.
    destruct (timestamps !! pred (length timestamps)) as [q|] eqn:Hq;
      [|done].
    injection He as <-.
    exists p.1, q.2. split_and!; [done|done|by apply Hlo| |done].
    apply (well_formed_le _ Hwf (pred (length timestamps) - j) j); [done|].
    by replace (j + (pred (length timestamps) - j))%nat
      with (pred (length timestamps)) by lia.
Qed.
End Ordered.

(** When no two lines of an item have the same text and the intervals are
    as many as the lines and well formed, every chunk starts no later than
    it ends and no earlier than the chunk before it ends. *)
Lemma temporal_order_distinct_lines self video_id lines timestamps lo :
  NoDup lines ->
  length timestamps = length lines ->
  well_formed timestamps ->
  (forall p, timestamps !! 0%nat = Some p -> lo <= p.1) ->
  ordered_from lo
    (yields (_chunk_by_length self video_id (PStr <$> lines) timestamps)).
Proof.
  intros Hnd Hlen Hwf Hlo.
  destruct timestamps as [|p timestamps].
  { by rewrite _chunk_by_length_no_timestamps. }
  rewrite _chunk_by_length_PStr.
  destruct (loop_run_init self video_id lines ((p :: timestamps).*1)
              ((p :: timestamps).*2) (word_total lines)) as [blks Hrun].
  by eapply run_ordered.
Qed.

(** ** No dropped tail under a non-negative min_tolerable threshold *)

Section NoDrop.
Variable self : Chunker.
Variable video_id : string.
Variable subtitles : list pystr.
Variables start_times end_times : list Z.
Hypothesis Hmin : 0 <= min_tolerable_threshold self.

(** At the last line nothing remains, so one of the two branches is taken
    there: the run never ends with lines left in the open block. *)
Lemma loop_flushes rest idx st j :
  rest = drop idx subtitles ->
  (j <= idx <= length subtitles)%nat ->
  st_block st = segment subtitles j idx ->
  (rest = [] -> j = idx) ->
  exists blks,
    run video_id subtitles start_times end_times j idx blks
      (loop self video_id subtitles start_times end_times
         (st_covered_length st + word_total rest) rest idx st)
    /\ (concat blks = drop j subtitles
        \/ exists i, (idx <= i < length subtitles)%nat
                     /\ concat blks
                        = segment subtitles j (S i) ++ drop i subtitles).
Proof.
  revert idx st j.
  induction rest as [|subtitle rest IH]; intros idx st j Hrest Hidx Hblk Hj.
  - assert (idx = length subtitles) as ->.
    { apply (f_equal length) in Hrest. rewrite length_drop in Hrest.
      simpl in Hrest. lia. }
    rewrite (Hj eq_refl). exists []. split; [constructor|].
    left. by rewrite drop_all.
  - apply drop_cons_inv in Hrest as [Hl Hrest].
    pose proof (lookup_lt_Some _ _ _ Hl) as Hlt.
    set (n := len (split (strip subtitle))).
    assert (st_covered_length st + word_total (subtitle :: rest)
            = (st_covered_length st + n) + word_total rest) as Htot.
    { unfold word_total. rewrite fmap_cons. simpl. lia. }
    rewrite Htot. clear Hj.
    destruct (decide (expected_threshold self <= st_length_of_block st + n
                      /\ min_tolerable_threshold self <= word_total rest))
      as [[H1 H2]|Hclose].
    + rewrite loop_close by (fold n; lia).
      rewrite Hblk, (segment_snoc _ _ _ _ (proj1 Hidx) Hl).
      edestruct (IH (S idx)
        {| st_block := []; st_length_of_block := 0;
           st_covered_length := st_covered_length st + n |} (S idx))
        as (blks & Hrun & Hblks); [done|lia|by rewrite segment_nil|done|].
      eexists. split; [by apply (run_close _ _ _ _ _ _ _ _ Hlt Hrun)|].
      cbn [concat]. destruct Hblks as [->|(i & Hi & ->)].
      * left. apply segment_drop. lia.
      * right. exists i. split; [lia|].
        rewrite (assoc_L (++)). f_equal. apply segment_app; lia.
    + destruct (decide (word_total rest <= min_tolerable_threshold self))
        as [Hmerge|Hskip].
      * rewrite loop_merge by (fold n; lia).
        rewrite Hblk, (segment_snoc _ _ _ _ (proj1 Hidx) Hl).
        eexists. split; [by apply run_merge|].
        right. exists idx. split; [lia|]. simpl.
        by rewrite (right_id_L [] (++)).
      * rewrite loop_skip by (fold n; lia).
        rewrite Hblk, (segment_snoc _ _ _ _ (proj1 Hidx) Hl).
        edestruct (IH (S idx)
          {| st_block := segment subtitles j (S idx);
             st_length_of_block := st_length_of_block st + n;
             st_covered_length := st_covered_length st + n |} j)
          as (blks & Hrun & Hblks); [done|lia|done| |].
        { intros ->. unfold word_total in Hskip. simpl in Hskip. lia. }
        eexists. split; [by apply run_skip|].
        destruct Hblks as [->|(i & Hi & ->)]; [by left|].
        right. exists i. split; [lia|done].
Qed.
End NoDrop.

(** With a non-negative min_tolerable threshold, text lines and an
    error-free segmentation, the blocks of the chunks make up all the lines
    of the item, or all of them with the line of the tail-merge repeated:
    a trailing block is dropped only under a negative threshold. *)
Lemma chunk_lines_nonneg self video_id lines p timestamps :
  0 <= min_tolerable_threshold self ->
  let g := _chunk_by_length self video_id (PStr <$> lines) (p :: timestamps) in
  raised g = None ->
  exists blks,
    Forall2 (fun r blk => block r = Val (join [SPACE] blk)) (yields g) blks
    /\ (concat blks = lines
        \/ (exists i, (i < length lines)%nat
                     /\ concat blks = take (S i) lines ++ drop i lines)).
Proof.
  intros Hmin g Hg. subst g. rewrite _chunk_by_length_PStr in *.
  destruct (loop_flushes self video_id lines ((p :: timestamps).*1)
              ((p :: timestamps).*2) Hmin lines 0 init_state 0)
    as (blks & Hrun & Hblks); [done|lia|by rewrite segment_nil| |].
  { intros ->. done. }
  simpl in Hrun. exists blks. split; [by eapply run_yields_blocks|].
  destruct Hblks as [->|(i & Hi & ->)]; [by left|].
  right. exists i. split; [lia|done].
Qed.

(** * Further properties of the code *)

(** ** The constructor *)

(** [Chunker(chunk_by, **kwargs)] is built exactly for the strategies
    "time" and "length", any other name being an AssertionError; each
    threshold is the caller's keyword when given and the default of the
    strategy otherwise, one independently of the other, and no value is
    refused. *)
Theorem init_characterised (chunk_by : string) (kwargs : gmap string Z) :
  let e := kwargs !! "expected_threshold"%string in
  let m := kwargs !! "min_tolerable_threshold"%string in
  (chunk_by = "length"%string ->
   __init__ chunk_by kwargs
   = Ok (length_policy (default 225 e) (default 150 m)))
  /\ (chunk_by = "time"%string ->
      __init__ chunk_by kwargs = Ok (time_policy (default 60 e) (default 45 m)))
  /\ (chunk_by <> "length"%string -> chunk_by <> "time"%string ->
      __init__ chunk_by kwargs = Err AssertionError).
Proof.
  intros e m. split_and!.
  - by intros ->.
  - by intros ->.
  - intros H1 H2. unfold __init__.
    rewrite decide_False; [done|].
    rewrite !elem_of_cons. intros [?|[?|?%elem_of_nil]]; done.
Qed.

Lemma init_characterised_witness :
  __init__ "length" {[ "min_tolerable_threshold"%string := -1 ]}
  = Ok (length_policy 225 (-1))
  /\ __init__ "words" ∅ = Err AssertionError.
Proof.
  destruct (init_characterised "length"
              {[ "min_tolerable_threshold"%string := -1 ]}) as (H & _ & _).
  destruct (init_characterised "words" ∅) as (_ & _ & H').
  split; [exact (H eq_refl)|apply H'; discriminate].
Defined.

(** ** Exceptions and the number of chunks *)

Lemma text_lines_never_raise self video_id lines p timestamps :
  (length lines <= length (p :: timestamps))%nat ->
  raised (_chunk_by_length self video_id (PStr <$> lines) (p :: timestamps))
  = None.
Proof.
  intros Hle. rewrite _chunk_by_length_PStr.
  destruct (loop_run_init self video_id lines ((p :: timestamps).*1)
              ((p :: timestamps).*2) (word_total lines)) as [blks Hrun].
  eapply run_no_error; [..|exact Hrun|lia]; rewrite length_fmap; lia.
Qed.

(** With at least one timestamp and no more lines than timestamps the
    generator ends without an exception, whatever the lines are. *)
Theorem enough_timestamps_never_raises self video_id subtitles timestamps :
  timestamps <> [] ->
  (length subtitles <= length timestamps)%nat ->
  raised (_chunk_by_length self video_id subtitles timestamps) = None.
Proof.
  intros Hne Hle.
  destruct (pyval_cases subtitles) as [HNaN|[lines ->]].
  - by rewrite _chunk_by_length_NaN.
  - destruct timestamps as [|p timestamps]; [done|].
    rewrite length_fmap in Hle. by apply text_lines_never_raise.
Qed.

Lemma enough_timestamps_never_raises_witness :
  raised (_chunk_by_length (length_policy 2 1) "v"
            [line "a b"; line "c"; line "d e"] [(0, 1); (1, 2); (2, 3)])
  = None.
Proof.
  apply enough_timestamps_never_raises; [discriminate|simpl; lia].
Defined.

Lemma run_count video_id subtitles start_times end_times j idx blks g :
  run video_id subtitles start_times end_times j idx blks g ->
  (length (yields g) + idx <= length subtitles)%nat.
Proof.
  induction 1 as [j|j idx blks g Hlt _ IH|j idx blks g Hlt _ IH|j idx Hlt].
  - simpl. lia.
  - lia.
  - destruct (emit _ _ _ _ _); simpl; lia.
  - destruct (emit _ _ _ _ _); simpl; lia.
Qed.

(** The generator never yields more records than the item has lines. *)
Theorem chunks_at_most_lines self video_id subtitles timestamps :
  (length (yields (_chunk_by_length self video_id subtitles timestamps))
   <= length subtitles)%nat.
Proof.
  destruct (pyval_cases subtitles) as [HNaN|[lines ->]].
  { rewrite _chunk_by_length_NaN by done. simpl.
    destruct subtitles; [by apply elem_of_nil in HNaN|simpl; lia]. }
  destruct timestamps as [|p timestamps].
  { rewrite _chunk_by_length_no_timestamps. simpl. lia. }
  rewrite _chunk_by_length_PStr, length_fmap.
  destruct (loop_run_init self video_id lines ((p :: timestamps).*1)
              ((p :: timestamps).*2) (word_total lines)) as [blks Hrun].
  apply run_count in Hrun. lia.
Qed.

(** ** Sizes of the chunks *)

Lemma loop_full self video_id subtitles start_times end_times total_length :
  forall rest idx st,
  st_length_of_block st
  = sum ((fun line => len (split line)) <$> st_block st) ->
  forall i r,
  yields (loop self video_id subtitles start_times end_times total_length
            rest idx st) !! i = Some r ->
  (S i < length (yields (loop self video_id subtitles start_times end_times
                           total_length rest idx st)))%nat ->
  exists n, length_of_block r = Val n /\ expected_threshold self <= n.
Proof.
  induction rest as [|subtitle rest IH]; intros idx st Hinv i r; [done|].
  cbn [loop].
  assert (st_length_of_block st + len (split (strip subtitle))
          = sum ((fun line => len (split line))
                   <$> (st_block st ++ [subtitle]))) as Hsnoc.
  { rewrite fmap_app, sum_app, <- Hinv, split_strip. simpl. lia. }
  destruct (_ && _) eqn:Hclose.
  - destruct (emit _ _ _ _ _) as [r0|e] eqn:He; simpl; [|done].
    destruct i as [|i]; simpl.
    + intros [= <-] _.
      apply emit_Ok in He as (? & ? & ? & ? & _ & _ & _ & _ & ->).
      simpl. eexists. split; [done|].
      rewrite <- Hsnoc. apply andb_true_iff in Hclose as [H _].
      by apply Z.leb_le.
    + intros Hi Hlt. eapply IH; [|exact Hi|lia]. done.
  - clear Hclose. destruct (total_length - _ <=? _).
    + destruct (emit _ _ _ _ _) as [r0|e]; simpl; [|done].
      destruct i; simpl; [lia|done].
    + by apply IH.
Qed.

(** Every record but the last one yielded has a size of at least
    expected_threshold words. *)
Theorem chunks_before_last_are_full self video_id subtitles timestamps i r :
  let rs := yields (_chunk_by_length self video_id subtitles timestamps) in
  rs !! i = Some r ->
  (S i < length rs)%nat ->
  exists n, length_of_block r = Val n /\ expected_threshold self <= n.
Proof.
  intros rs. subst rs.
  destruct (pyval_cases subtitles) as [HNaN|[lines ->]].
  { rewrite _chunk_by_length_NaN by done. simpl. lia. }
  destruct timestamps as [|p timestamps].
  { by rewrite _chunk_by_length_no_timestamps. }
  rewrite _chunk_by_length_PStr. by apply loop_full.
Qed.

Lemma chunks_before_last_are_full_witness :
  exists n,
    length_of_block (pack "v" (Val (str_of "a b")) (Val 2) (Val 0) (Val 1))
    = Val n
    /\ expected_threshold (length_policy 2 1) <= n.
Proof.
  apply (chunks_before_last_are_full (length_policy 2 1) "v"
           [line "a b"; line "c"; line "d e"] [(0, 1); (1, 2); (2, 3)]
           0 (pack "v" (Val (str_of "a b")) (Val 2) (Val 0) (Val 1)));
    [reflexivity|simpl; lia].
Defined.

(** ** Times of the chunks *)

Lemma index_first (x : pystr) (l : list pystr) :
  l !! 0%nat = Some x -> index x l = Some 0%nat.
Proof. destruct l as [|y l]; [done|]. intros [= ->]. apply index_head. Qed.

Lemma run_first_start video_id subtitles start_times end_times
    idx blks g r :
  run video_id subtitles start_times end_times 0 idx blks g ->
  head (yields g) = Some r ->
  exists s, start_times !! 0%nat = Some s /\ start_time r = Val s.
Proof.
  remember 0%nat as j eqn:Hj. intros Hrun. revert Hj.
  induction Hrun as [j|j idx blks g Hlt _ IH|j idx blks g Hlt _ IH|j idx Hlt];
    intros ->.
  - done.
  - by apply IH.
  - pose proof (head_segment subtitles 0 (S idx) []) as Hh.
    rewrite (right_id_L [] (++)) in Hh.
    destruct (emit _ _ _ _ _) as [r0|e] eqn:He; simpl; [|done].
    intros [= <-].
    apply emit_Ok in He as (first & i & s & e & Hf & Hi & Hs & _ & ->).
    rewrite Hh in Hf by lia. rewrite (index_first _ _ Hf) in Hi.
    injection Hi as <-. eauto.
  - pose proof (head_segment subtitles 0 (S idx) (drop idx subtitles)) as Hh.
    destruct (emit _ _ _ _ _) as [r0|e] eqn:He; simpl; [|done].
    intros [= <-].
    apply emit_Ok in He as (first & i & s & e & Hf & Hi & Hs & _ & ->).
    rewrite Hh in Hf by lia. rewrite (index_first _ _ Hf) in Hi.
    injection Hi as <-. eauto.
Qed.

(** The first chunk of an item of text lines starts where the first line
    starts, repeated line texts or not. *)
Theorem first_chunk_starts_with_item self video_id lines p timestamps r :
  head (yields (_chunk_by_length self video_id (PStr <$> lines)
                  (p :: timestamps))) = Some r ->
  start_time r = Val p.1.
Proof.
  rewrite _chunk_by_length_PStr. intros Hr.
  destruct (loop_run_init self video_id lines ((p :: timestamps).*1)
              ((p :: timestamps).*2) (word_total lines)) as [blks Hrun].
  destruct (run_first_start _ _ _ _ _ _ _ _ Hrun Hr) as (s & [= <-] & ->).
  done.
Qed.

Lemma first_chunk_starts_with_item_witness :
  start_time (pack "v" (Val (str_of "a b")) (Val 2) (Val 7) (Val 9)) = Val 7.
Proof.
  apply (first_chunk_starts_with_item (length_policy 2 1) "v"
           [str_of "a"; str_of "b"; str_of "a"; str_of "b"; str_of "c"]
           (7, 8) [(8, 9); (9, 10); (10, 11); (11, 12)]).
  reflexivity.
Defined.

Section StartBeforeEnd.
Variable video_id : string.
Variable subtitles : list pystr.
Variable timestamps : list (Z * Z).
Hypothesis Hlength : length timestamps = length subtitles.
Hypothesis Hwf : well_formed timestamps.

(** The start of a yield is the start of a line at or before the first
    line of its block. *)
Lemma emit_times_le j blk et r :
  (j < length subtitles)%nat ->
  head blk = subtitles !! j ->
  emit video_id subtitles (timestamps.*1) blk et = Ok r ->
  exists i p e,
    (i <= j)%nat /\ timestamps !! i = Some p /\ et = Some e
    /\ start_time r = Val p.1 /\ end_time r = Val e.
Proof.
  intros Hj Hh He.
  apply emit_Ok in He as (first & i & s & e & Hf & Hi & Hs & -> & ->).
  rewrite Hh in Hf.
  destruct (index_lookup _ _ _ Hf) as (i' & Hi' & Hle & _).
  assert (i' = i) as -> by congruence.
  rewrite list_lookup_fmap in Hs.
  destruct (timestamps !! i) as [p|] eqn:Hp; [|done].
  injection Hs as <-. exists i, p, e. eauto 10.
Qed.

Lemma run_start_le_end j idx blks g :
  run video_id subtitles (timestamps.*1) (timestamps.*2) j idx blks g ->
  (j <= idx)%nat ->
  forall r, r ∈ yields g ->
    exists s e, start_time r = Val s /\ end_time r = Val e /\ s <= e.
Proof.
  induction 1 as [j|j idx blks g Hlt _ IH|j idx blks g Hlt _ IH|j idx Hlt];
    intros Hj r Hr.
  - by apply elem_of_nil in Hr.
  - apply IH; [lia|done].
  - destruct (emit _ _ _ _ _) as [r0|e] eqn:He; simpl in Hr;
      [|by apply elem_of_nil in Hr].
    apply elem_of_cons in Hr as [->|Hr]; [|apply IH; [lia|done]].
    apply (emit_times_le j) in He
      as (i & p & e & Hi & Hp & He & -> & ->); [|lia|].
    2:{ rewrite <- (head_segment _ j (S idx) []) by lia.
        by rewrite (right_id_L [] (++)). }
    rewrite list_lookup_fmap in He.
    destruct (timestamps !! idx) as [q|] eqn:Hq; [|done].
    injection He as <-. exists p.1, q.2. split_and!; [done..|].
    apply (well_formed_le _ Hwf (idx - i) i); [done|].
    by replace (i + (idx - i))%nat with idx by lia.
  - destruct (emit _ _ _ _ _) as [r0|e] eqn:He; simpl in Hr;
      [|by apply elem_of_nil in Hr].
    apply list_elem_of_singleton in Hr as ->.
    apply (emit_times_le j) in He
      as (i & p & e & Hi & Hp & He & -> & ->); [|lia|].
    2:{ by rewrite head_segment by lia. }
    rewrite last_lookup, list_lookup_fmap, length_fmap in He.
    destruct (timestamps !! pred (length timestamps)) as [q|] eqn:Hq;
      [|done].
    injection He as <-. exists p.1, q.2. split_and!; [done..|].
    apply (well_formed_le _ Hwf (pred (length timestamps) - i) i); [done|].
    by replace (i + (pred (length timestamps) - i))%nat
      with (pred (length timestamps)) by lia.
Qed.
End StartBeforeEnd.

(** On text lines with as many well-formed intervals, every chunk starts
    no later than it ends, also when line texts repeat. *)
Theorem chunk_starts_before_it_ends self video_id lines timestamps r :
  length timestamps = length lines ->
  well_formed timestamps ->
  r ∈ yields (_chunk_by_length self video_id (PStr <$> lines) timestamps) ->
  exists s e, start_time r = Val s /\ end_time r = Val e /\ s <= e.
Proof.
  intros Hlen Hwf Hr.
  destruct timestamps as [|p timestamps].
  { rewrite _chunk_by_length_no_timestamps in Hr.
    by apply elem_of_nil in Hr. }
  rewrite _chunk_by_length_PStr in Hr.
  destruct (loop_run_init self video_id lines ((p :: timestamps).*1)
              ((p :: timestamps).*2) (word_total lines)) as [blks Hrun].
  by eapply run_start_le_end.
Qed.

Lemma well_formed_unit_intervals n : well_formed (unit_intervals n).
Proof.
  unfold well_formed, unit_intervals. split.
  - intros i p Hp. rewrite list_lookup_fmap in Hp.
    destruct (seq 0 n !! i); [|done]. injection Hp as <-. simpl. lia.
  - intros i p q Hp Hq. rewrite list_lookup_fmap in Hp, Hq.
    destruct (seq 0 n !! i) as [a|] eqn:Ha; [|done].
    destruct (seq 0 n !! S i) as [b|] eqn:Hb; [|done].
    injection Hp as <-. injection Hq as <-. simpl.
    apply lookup_seq in Ha as [-> _]. apply lookup_seq in Hb as [-> _]. lia.
Qed.

Lemma chunk_starts_before_it_ends_witness :
  exists s e,
    start_time (pack "v" (Val (str_of "a b")) (Val 2) (Val 0) (Val 4))
    = Val s
    /\ end_time (pack "v" (Val (str_of "a b")) (Val 2) (Val 0) (Val 4))
       = Val e
    /\ s <= e.
Proof.
  apply (chunk_starts_before_it_ends (length_policy 2 1) "v"
           [str_of "a"; str_of "b"; str_of "a"; str_of "b"; str_of "c"]
           (unit_intervals 5)).
  - reflexivity.
  - apply well_formed_unit_intervals.
  - vm_compute. right. left.
Defined.

(** ** Short items and the last chunk *)

Lemma word_total_nonneg (lines : list pystr) : 0 <= word_total lines.
Proof.
  unfold word_total, len. induction lines as [|l lines IH]; [done|].
  rewrite fmap_cons. simpl. lia.
Qed.

Lemma word_total_cons (l : pystr) (lines : list pystr) :
  word_total (l :: lines) = len (split (strip l)) + word_total lines.
Proof. done. Qed.

(** An item of text lines whose words number at most min_tolerable, that
    being below expected, comes out as one chunk made on its first line: the
    first line, then all the lines, from the start of the first interval to
    the end of the last. *)
Theorem short_item_single_chunk self video_id l rest p timestamps :
  word_total (l :: rest) <= min_tolerable_threshold self ->
  min_tolerable_threshold self < expected_threshold self ->
  exists e,
    last ((p :: timestamps).*2) = Some e
    /\ _chunk_by_length self video_id (PStr <$> l :: rest) (p :: timestamps)
       = Yield (pack video_id (Val (join [SPACE] (l :: l :: rest)))
                  (Val (sum ((fun line => len (split line))
                               <$> l :: l :: rest)))
                  (Val p.1) (Val e)) Stop.
Proof.
  intros Hshort Hmin.
  destruct (last ((p :: timestamps).*2)) as [e|] eqn:He.
  2:{ apply last_None in He. done. }
  exists e. split; [done|].
  rewrite _chunk_by_length_PStr.
  pose proof (word_total_nonneg rest) as Hrest.
  pose proof (word_total_nonneg [l]) as Hl.
  rewrite word_total_cons in Hshort, Hl.
  change (word_total []) with 0 in Hl.
  rewrite loop_merge_block;
    [|done|cbn [init_state st_length_of_block st_covered_length];
           rewrite ?word_total_cons; lia..].
  rewrite He. unfold emit.
  cbn [init_state st_block app head or_raise mbind result_bind].
  rewrite index_head. done.
Qed.

Lemma short_item_single_chunk_witness :
  exists e,
    last ([(0, 2); (2, 5)].*2) = Some e
    /\ _chunk_by_length (length_policy 225 150) "v"
         (PStr <$> [str_of "so what"; str_of "is life"]) [(0, 2); (2, 5)]
       = Yield (pack "v"
                  (Val (join [SPACE]
                          [str_of "so what"; str_of "so what";
                           str_of "is life"]))
                  (Val (sum ((fun line => len (split line))
                               <$> [str_of "so what"; str_of "so what";
                                    str_of "is life"])))
                  (Val (0, 2).1) (Val e)) Stop.
Proof.
  apply (short_item_single_chunk (length_policy 225 150) "v"
           (str_of "so what") [str_of "is life"] (0, 2) [(2, 5)]);
    vm_compute; [discriminate|reflexivity].
Defined.

Section LastChunk.
Variable self : Chunker.
Variable video_id : string.
Variable subtitles : list pystr.
Variable timestamps : list (Z * Z).
Hypothesis Hmin : 0 <= min_tolerable_threshold self.
Hypothesis Hlength : length timestamps = length subtitles.

Lemma last_cons_Some {A} (x y : A) (l : list A) :
  last l = Some y -> last (x :: l) = Some y.
Proof. destruct l; [done|]. by rewrite last_cons_cons. Qed.

Lemma loop_last_end rest idx st j :
  rest = drop idx subtitles ->
  (j <= idx)%nat ->
  st_block st = segment subtitles j idx ->
  rest <> [] ->
  exists r q,
    last (yields
            (loop self video_id subtitles (timestamps.*1) (timestamps.*2)
               (st_covered_length st + word_total rest) rest idx st))
    = Some r
    /\ last timestamps = Some q /\ end_time r = Val q.2.
Proof.
  revert idx st j.
  induction rest as [|subtitle rest IH]; intros idx st j Hrest Hj Hblk Hne;
    [done|]. clear Hne.
  apply drop_cons_inv in Hrest as [Hl Hrest].
  pose proof (lookup_lt_Some _ _ _ Hl) as Hlt.
  set (n := len (split (strip subtitle))).
  assert (st_covered_length st + word_total (subtitle :: rest)
          = (st_covered_length st + n) + word_total rest) as ->.
  { rewrite word_total_cons. lia. }
  destruct (last timestamps) as [q|] eqn:Hq.
  2:{ apply last_None in Hq. subst timestamps. simpl in Hlength. lia. }
  assert (last (timestamps.*2) = Some q.2) as Hq2 by by rewrite fmap_last, Hq.
  destruct (decide (expected_threshold self <= st_length_of_block st + n
                    /\ min_tolerable_threshold self <= word_total rest))
    as [[H1 H2]|Hclose].
  - rewrite loop_close by (fold n; lia).
    rewrite Hblk, (segment_snoc _ _ _ _ Hj Hl).
    destruct (head_segment_is_Some subtitles j (S idx) [])
      as (first & Hh & Hf); [lia|]. rewrite (right_id_L [] (++)) in Hh.
    destruct (emit_is_Ok video_id subtitles (timestamps.*1) _
                (timestamps.*2 !! idx) _ _ Hh Hf) as [r0 He];
      [rewrite length_fmap; lia
      |apply lookup_lt_is_Some_2; rewrite length_fmap; lia|].
    rewrite He. cbn [emit_then yields].
    destruct rest as [|subtitle' rest'].
    + exists r0, q. split_and!; [done|done|].
      apply emit_Ok in He as (? & ? & ? & e & _ & _ & _ & He & ->).
      simpl. f_equal.
      assert (idx = pred (length (timestamps.*2))) as ->.
      { apply (f_equal length) in Hrest. rewrite length_drop in Hrest.
        rewrite length_fmap. simpl in Hrest. lia. }
      rewrite <- last_lookup, Hq2 in He. congruence.
    + edestruct (IH (S idx)
        {| st_block := []; st_length_of_block := 0;
           st_covered_length := st_covered_length st + n |} (S idx))
        as (r & q' & Hr & Hq' & He'); [done|lia|by rewrite segment_nil|done|].
      exists r, q'. split_and!; [|done..].
      by apply last_cons_Some.
  - destruct (decide (word_total rest <= min_tolerable_threshold self))
      as [Hmerge|Hskip].
    + rewrite loop_merge by (fold n; lia).
      rewrite Hblk, (segment_snoc _ _ _ _ Hj Hl).
      destruct (head_segment_is_Some subtitles j (S idx)
                  (drop idx subtitles)) as (first & Hh & Hf); [lia|].
      destruct (emit_is_Ok video_id subtitles (timestamps.*1) _
                  (last (timestamps.*2)) _ _ Hh Hf) as [r0 He];
        [rewrite length_fmap; lia|by rewrite Hq2|].
      rewrite He. exists r0, q. split_and!; [done|done|].
      apply emit_Ok in He as (? & ? & ? & e & _ & _ & _ & He & ->).
      simpl. congruence.
    + rewrite loop_skip by (fold n; lia).
      rewrite Hblk, (segment_snoc _ _ _ _ Hj Hl).
      edestruct (IH (S idx)
        {| st_block := segment subtitles j (S idx);
           st_length_of_block := st_length_of_block st + n;
           st_covered_length := st_covered_length st + n |} j)
        as (r & q' & Hr & Hq' & He'); [done|lia|done| |].
      { intros ->. change (word_total []) with 0 in Hskip. lia. }
      exists r, q'. by rewrite Hq' in *.
Qed.
End LastChunk.

(** Under a non-negative min_tolerable threshold an item of text lines
    with as many intervals yields at least one chunk, and its last chunk
    ends where the last interval ends. *)
Theorem last_chunk_ends_with_item self video_id lines timestamps :
  0 <= min_tolerable_threshold self ->
  lines <> [] ->
  length timestamps = length lines ->
  exists r q,
    last (yields (_chunk_by_length self video_id (PStr <$> lines) timestamps))
    = Some r
    /\ last timestamps = Some q /\ end_time r = Val q.2.
Proof.
  intros Hmin Hne Hlen.
  destruct timestamps as [|p timestamps].
  { destruct lines; done. }
  rewrite _chunk_by_length_PStr.
  apply (loop_last_end self video_id lines (p :: timestamps) Hmin Hlen
           lines 0 init_state 0); [done|lia|by rewrite segment_nil|done].
Qed.

Lemma last_chunk_ends_with_item_witness :
  exists r q,
    last (yields (_chunk_by_length (length_policy 2 1) "v"
                    (PStr <$> [str_of "a b"; str_of "c"; str_of "d e"])
                    [(0, 1); (1, 2); (2, 3)])) = Some r
    /\ last [(0, 1); (1, 2); (2, 3)] = Some q /\ end_time r = Val q.2.
Proof.
  apply last_chunk_ends_with_item; [simpl; lia|discriminate|reflexivity].
Defined.

(** ** The batch: errors and keys *)

Lemma mapM_app_Err {A B} (f : A -> result B) (l k : list A) a bs e :
  mapM f l = Ok bs -> f a = Err e -> mapM f (l ++ a :: k) = Err e.
Proof.
  revert bs. induction l as [|x l IH]; intros bs; simpl.
  - intros _ ->. done.
  - destruct (f x) as [b|]; simpl; [|done].
    destruct (mapM f l) as [bs'|]; simpl; [|done].
    intros _ Ha. by rewrite (IH bs').
Qed.

Lemma mapM_Ok_inv {A B} (f : A -> result B) (l : list A) bs :
  mapM f l = Ok bs -> Forall2 (fun a b => f a = Ok b) l bs.
Proof.
  revert bs. induction l as [|x l IH]; intros bs; simpl.
  - intros [= <-]. constructor.
  - destruct (f x) as [b|] eqn:Hx; simpl; [|done].
    destruct (mapM f l) as [bs'|]; simpl; [|done].
    intros [= <-]. constructor; [done|by apply IH].
Qed.

Lemma frame_of_Err self it e :
  chunk_by self = "length"%string ->
  raised (segment_item self it) = Some e ->
  frame_of self it = Err e.
Proof.
  destruct it as [[video_id subtitles] timestamps]. intros Hlen Hr.
  rewrite frame_of_length by done. unfold list_of_gen, segment_item in *.
  simpl in Hr. by rewrite Hr.
Qed.

Lemma frame_of_Ok_inv self it f :
  frame_of self it = Ok f ->
  raised (segment_item self it) = None
  /\ f = make_df (yields (segment_item self it)).
Proof.
  destruct it as [[video_id subtitles] timestamps]. unfold frame_of.
  destruct (_func_mapping_dict !! chunk_by self) as [name|]; [|done].
  cbn [or_raise mbind result_bind]. unfold getattr.
  destruct (decide (name = "_chunk_by_length"%string)) as [_|_].
  - cbn [mbind result_bind]. unfold list_of_gen, segment_item. simpl.
    destruct (raised _); [done|]. by intros [= <-].
  - destruct (decide (name = "_chunk_by_time"%string)); done.
Qed.

(** The first item whose segmentation raises makes the whole batch raise
    that exception: no table is returned for the items before it. *)
Theorem failing_item_aborts_batch self before it after e :
  chunk_by self = "length"%string ->
  Forall (fun it => raised (segment_item self it) = None) before ->
  raised (segment_item self it) = Some e ->
  get_chunks self (before ++ it :: after) = Err e.
Proof.
  intros Hlen Hok He. unfold get_chunks.
  rewrite (mapM_app_Err _ _ _ _ _ e (mapM_frame_of self before Hlen Hok));
    [done|by apply frame_of_Err].
Qed.

Lemma failing_item_aborts_batch_witness :
  get_chunks (length_policy 225 150)
    ([("u"%string, [line "what is life"], [(0, 4)])]
     ++ ("v"%string, [], []) :: [("w"%string, [line "so"], [(0, 1)])])
  = Err ValueError.
Proof.
  apply failing_item_aborts_batch;
    [reflexivity|repeat constructor|reflexivity].
Defined.

(** A batch none of whose items yields a record raises KeyError: the
    concatenated frame has no videoId column to index by. *)
Theorem batch_without_records_raises self scrapped_df :
  chunk_by self = "length"%string ->
  scrapped_df <> [] ->
  Forall (fun it => raised (segment_item self it) = None
                    /\ yields (segment_item self it) = []) scrapped_df ->
  get_chunks self scrapped_df = Err KeyError.
Proof.
  intros Hlen Hne Hall. unfold get_chunks.
  rewrite mapM_frame_of; [|done|by eapply Forall_impl; [exact Hall|intros ? []]].
  cbn [mbind result_bind].
  assert (concat ((fun it => make_df (yields (segment_item self it)))
                    <$> scrapped_df) = []) as Hnil.
  { clear Hne. induction Hall as [|it items [_ Hit] _ IH]; [done|].
    rewrite fmap_cons. cbn [concat]. by rewrite Hit, IH. }
  destruct scrapped_df as [|it items]; [done|].
  unfold pd_concat. rewrite fmap_cons in Hnil |- *.
  cbn [mbind result_bind]. by rewrite Hnil.
Qed.

Lemma batch_without_records_raises_witness :
  get_chunks (length_policy 5 (-1))
    [("u"%string, [line "what is life"], [(0, 4)]);
     ("v"%string, [line "so"], [(0, 1)])]
  = Err KeyError.
Proof.
  apply batch_without_records_raises;
    [reflexivity|discriminate|repeat constructor].
Defined.

Lemma get_chunks_Ok_frame self scrapped_df T :
  get_chunks self scrapped_df = Ok T ->
  Forall (fun it => raised (segment_item self it) = None) scrapped_df
  /\ concat ((fun it => make_df (yields (segment_item self it)))
               <$> scrapped_df) <> []
  /\ T = to_row <$>
           concat ((fun it => make_df (yields (segment_item self it)))
                     <$> scrapped_df).
Proof.
  unfold get_chunks.
  destruct (mapM (frame_of self) scrapped_df) as [frames|] eqn:Hm; [|done].
  cbn [mbind result_bind]. apply mapM_Ok_inv in Hm.
  assert (frames
          = (fun it => make_df (yields (segment_item self it)))
              <$> scrapped_df
          /\ Forall (fun it => raised (segment_item self it) = None)
               scrapped_df) as [-> Hok].
  { induction Hm as [|it f items fs Hf _ [IH1 IH2]]; [done|].
    apply frame_of_Ok_inv in Hf as [Hr ->].
    rewrite fmap_cons. split; [by f_equal|by constructor]. }
  destruct scrapped_df as [|it items]; [done|].
  remember (it :: items) as sdf eqn:Hsdf.
  replace (pd_concat ((fun it => make_df (yields (segment_item self it)))
                        <$> sdf))
    with (Ok (concat ((fun it => make_df (yields (segment_item self it)))
                        <$> sdf)))
    by by subst sdf.
  cbn [mbind result_bind].
  destruct (concat _) as [|row df]; [done|]. unfold index_df.
  by intros [= <-].
Qed.

(** A table is returned only when no item raised and some record was
    yielded, and it is then the table of the items' records. *)
Theorem returned_table_is_chunked_table self scrapped_df T :
  get_chunks self scrapped_df = Ok T ->
  T = chunked_table self scrapped_df
  /\ Forall (fun it => raised (segment_item self it) = None) scrapped_df
  /\ Exists (fun it => yields (segment_item self it) <> []) scrapped_df.
Proof.
  intros (Hok & Hne & ->)%get_chunks_Ok_frame.
  split_and!; [apply to_row_concat|done|].
  clear Hok. induction scrapped_df as [|it items IH]; [done|].
  rewrite fmap_cons in Hne. cbn [concat] in Hne.
  destruct (yields (segment_item self it)) eqn:Hy.
  - apply Exists_cons_tl. by apply IH.
  - apply Exists_cons_hd. by rewrite Hy.
Qed.

Lemma returned_table_is_chunked_table_witness :
  to_row <$> [(0%nat, degenerate "v")]
  = chunked_table (length_policy 225 150) [("v"%string, [PNaN], [])].
Proof.
  refine (proj1 (returned_table_is_chunked_table (length_policy 225 150)
                   [("v"%string, [PNaN], [])] _ _)).
  reflexivity.
Defined.

Lemma item_rows_lookup self it i row :
  item_rows self it !! i = Some row -> key row = (it.1.1, i).
Proof.
  unfold item_rows. rewrite list_lookup_imap.
  destruct (yields (segment_item self it) !! i); [|done].
  by intros [= <-].
Qed.

Lemma item_rows_keys_NoDup self it : NoDup (key <$> item_rows self it).
Proof.
  apply NoDup_alt. intros i j k Hi Hj.
  rewrite list_lookup_fmap in Hi, Hj.
  destruct (item_rows self it !! i) as [ri|] eqn:Hri; [|done].
  destruct (item_rows self it !! j) as [rj|] eqn:Hrj; [|done].
  apply item_rows_lookup in Hri, Hrj. simpl in Hi, Hj. congruence.
Qed.

Lemma chunked_table_ids self scrapped_df k :
  k ∈ key <$> chunked_table self scrapped_df -> k.1 ∈ scrapped_df.*1.*1.
Proof.
  unfold chunked_table. induction scrapped_df as [|it items IH].
  { by intros ?%elem_of_nil. }
  rewrite bind_cons, fmap_app, elem_of_app, !fmap_cons, elem_of_cons.
  intros [Hk|Hk]; [left|right; by apply IH].
  apply list_elem_of_fmap in Hk as (row & -> & Hrow).
  apply list_elem_of_lookup_1 in Hrow as [i Hi].
  by rewrite (item_rows_lookup _ _ _ _ Hi).
Qed.

(** When the video ids of the batch are pairwise distinct, so are the
    keys (videoId, block_number) of the table returned. *)
Theorem distinct_ids_give_distinct_keys self scrapped_df T :
  get_chunks self scrapped_df = Ok T ->
  NoDup (scrapped_df.*1.*1) ->
  NoDup (key <$> T).
Proof.
  intros (_ & _ & ->)%get_chunks_Ok_frame. rewrite to_row_concat.
  unfold chunked_table. induction scrapped_df as [|it items IH]; intros Hnd.
  { constructor. }
  rewrite !fmap_cons in Hnd. apply NoDup_cons in Hnd as [Hit Hnd].
  rewrite bind_cons, fmap_app. apply NoDup_app. split_and!.
  - apply item_rows_keys_NoDup.
  - intros k Hk Hk'. apply chunked_table_ids in Hk'.
    apply list_elem_of_fmap in Hk as (row & -> & Hrow).
    apply list_elem_of_lookup_1 in Hrow as [i Hi].
    rewrite (item_rows_lookup _ _ _ _ Hi) in Hk'. done.
  - by apply IH.
Qed.

Lemma distinct_ids_give_distinct_keys_witness :
  NoDup (key <$>
           chunked_table (length_policy 2 1)
             [("u"%string, [line "a b"; line "c"; line "d e"],
               [(0, 1); (1, 2); (2, 3)]);
              ("v"%string, [PNaN], [(0, 0)])]).
Proof.
  apply (distinct_ids_give_distinct_keys (length_policy 2 1)
           [("u"%string, [line "a b"; line "c"; line "d e"],
             [(0, 1); (1, 2); (2, 3)]);
            ("v"%string, [PNaN], [(0, 0)])]).
  - reflexivity.
  - apply NoDup_cons. split; [|apply NoDup_singleton].
    intros H%list_elem_of_singleton. discriminate.
Defined.

(** ** Playlist ids *)

Lemma startswith_app (p s : pystr) : YouTubeClient.startswith (p ++ s) p = true.
Proof.
  induction p as [|c p IH]; [by destruct s|].
  simpl. by rewrite N.eqb_refl, IH.
Qed.

Lemma find_unfold (s sub : pystr) :
  YouTubeClient.find s sub
  = if YouTubeClient.startswith s sub then 0
    else match s with
         | [] => -1
         | _ :: s' =>
             if YouTubeClient.find s' sub =? -1 then -1
             else YouTubeClient.find s' sub + 1
         end.
Proof. by destruct s. Qed.

Lemma startswith_cons_ne (c c0 : N) (s sub : pystr) :
  c <> c0 -> YouTubeClient.startswith (c :: s) (c0 :: sub) = false.
Proof. intros H. simpl. by rewrite (proj2 (N.eqb_neq c c0)). Qed.

Lemma find_after (c0 : N) (sub a b : pystr) :
  c0 ∉ a ->
  YouTubeClient.find (a ++ (c0 :: sub) ++ b) (c0 :: sub) = len a.
Proof.
  induction a as [|c a IH]; intros Ha.
  - change ([] ++ (c0 :: sub) ++ b) with ((c0 :: sub) ++ b).
    by rewrite find_unfold, startswith_app.
  - apply not_elem_of_cons in Ha as [Hc Ha].
    change ((c :: a) ++ (c0 :: sub) ++ b)
      with (c :: (a ++ (c0 :: sub) ++ b)).
    rewrite find_unfold, startswith_cons_ne, IH by done.
    unfold len. simpl length.
    destruct (Z.eqb_spec (Z.of_nat (length a)) (-1)); lia.
Qed.

Lemma find_absent (c0 : N) (sub s : pystr) :
  c0 ∉ s -> YouTubeClient.find s (c0 :: sub) = -1.
Proof.
  induction s as [|c s IH]; intros Hs; [done|].
  apply not_elem_of_cons in Hs as [Hc Hs].
  by rewrite find_unfold, startswith_cons_ne, IH.
Qed.

Lemma AMP_not_in_WATCH : AMP ∉ YouTubeClient.WATCH.
Proof.
  intros H. apply list_elem_of_In in H. vm_compute in H.
  repeat (destruct H as [H|H]; [discriminate|]). done.
Qed.

Lemma extract_playlist_id_url (q id : pystr) :
  AMP ∉ q ->
  YouTubeClient.extract_playlist_id
    (YouTubeClient.WATCH ++ q ++ YouTubeClient.LIST ++ id) = id.
Proof.
  intros Hq. unfold YouTubeClient.extract_playlist_id.
  rewrite (assoc_L (++) YouTubeClient.WATCH q).
  change YouTubeClient.LIST with (AMP :: str_of "list=").
  rewrite find_after.
  2:{ rewrite not_elem_of_app. split; [apply AMP_not_in_WATCH|done]. }
  unfold YouTubeClient.slice_from, len.
  destruct (Z.ltb_spec (Z.of_nat (length (YouTubeClient.WATCH ++ q)) + 6) 0);
    [lia|].
  replace (Z.to_nat (Z.of_nat (length (YouTubeClient.WATCH ++ q)) + 6))
    with (length ((YouTubeClient.WATCH ++ q) ++ AMP :: str_of "list="))
    by (rewrite (length_app (_ ++ _)); simpl length; lia).
  change ((AMP :: str_of "list=") ++ id)
    with ((AMP :: str_of "list=") ++ id).
  rewrite (assoc_L (++) (YouTubeClient.WATCH ++ q)).
  by rewrite drop_app_length.
Qed.

(** [from_playlist] turns its arguments into playlist ids: a bare id is
    kept, and a watch URL gives what follows its first "&list=", which is
    the id when the list is the first parameter after the query. *)
Theorem playlist_ids_of_names (playlists ids : list pystr) :
  Forall2 names playlists ids ->
  YouTubeClient.playlist_ids playlists = ids.
Proof.
  unfold YouTubeClient.playlist_ids.
  induction 1 as [|playlist id playlists ids Hn _ IH]; [done|].
  rewrite fmap_cons, IH. f_equal. unfold YouTubeClient.is_url.
  destruct Hn as [playlist Hs|q id Hq].
  - by rewrite Hs.
  - by rewrite startswith_app, extract_playlist_id_url.
Qed.

Lemma playlist_ids_of_names_witness :
  YouTubeClient.playlist_ids
    [str_of "PL999";
     YouTubeClient.WATCH ++ str_of "v=abc" ++ YouTubeClient.LIST
       ++ str_of "PL123&index=2"]
  = [str_of "PL999"; str_of "PL123&index=2"].
Proof.
  apply playlist_ids_of_names.
  constructor; [|constructor; [|constructor]].
  - apply names_id. reflexivity.
  - apply names_url. intros H. apply list_elem_of_In in H.
    vm_compute in H. repeat (destruct H as [H|H]; [discriminate|]). done.
Defined.

(** A watch URL without any "&" has no "&list=" in it: [find] returns -1
    and the id taken is the URL from its sixth character on. *)
Theorem watch_url_without_list (q : pystr) :
  AMP ∉ q ->
  YouTubeClient.playlist_ids [YouTubeClient.WATCH ++ q]
  = [str_of "://www.youtube.com/watch?" ++ q].
Proof.
  intros Hq. unfold YouTubeClient.playlist_ids, YouTubeClient.is_url.
  rewrite fmap_cons, startswith_app.
  unfold YouTubeClient.extract_playlist_id.
  change YouTubeClient.LIST with (AMP :: str_of "list=").
  rewrite find_absent.
  2:{ rewrite not_elem_of_app. split; [apply AMP_not_in_WATCH|done]. }
  done.
Qed.

Lemma watch_url_without_list_witness :
  YouTubeClient.playlist_ids [YouTubeClient.WATCH ++ str_of "v=abc"]
  = [str_of "://www.youtube.com/watch?" ++ str_of "v=abc"].
Proof.
  apply watch_url_without_list. intros H. apply list_elem_of_In in H.
  vm_compute in H. repeat (destruct H as [H|H]; [discriminate|]). done.
Defined.

(** ** Transcripts handed to the chunker *)

(** Whatever exception the transcript call raises, the row built for the
    video has the single line NaN, and the chunker makes of it the one
    degenerate record, whatever timestamps go with it. *)
Theorem failed_transcript_gives_degenerate plus e self video_id timestamps :
  exists subtitles ts,
    transcript_row plus (Err e) = Ok (subtitles, ts)
    /\ numbers ts = None
    /\ _chunk_by_length self video_id subtitles timestamps
       = Yield (degenerate video_id) Stop.
Proof.
  exists [PNaN], [(NaN, plus NaN NaN)]. split_and!; [done..|].
  apply _chunk_by_length_NaN. by apply list_elem_of_singleton.
Qed.

Lemma numbers_length timestamps zs :
  numbers timestamps = Some zs -> length zs = length timestamps.
Proof.
  revert zs. induction timestamps as [|[[|a] [|b]] ts IH]; intros zs;
    simpl; try done.
  - by intros [= <-].
  - destruct (numbers ts) as [zs'|]; [|done]. simpl.
    intros [= <-]. simpl. by rewrite (IH zs').
Qed.

(** A transcript that was fetched, with numbers for its starts and
    durations, never makes the chunker raise. *)
Theorem fetched_transcript_never_raises plus response subtitles ts zs
    self video_id :
  transcript_row plus (Ok response) = Ok (subtitles, ts) ->
  numbers ts = Some zs ->
  raised (_chunk_by_length self video_id subtitles zs) = None.
Proof.
  unfold transcript_row, YouTubeClient._execute_query_transcript,
    YouTubeClient._process_query_transcript.
  intros Hrow Hzs. apply numbers_length in Hzs.
  destruct (concat [response]) as [|r0 rows]; [done|].
  assert (length subtitles = length ts /\ subtitles <> []) as [Hlen Hne].
  { injection Hrow as <- <-. simpl. by rewrite !length_fmap. }
  destruct zs as [|p zs].
  { destruct subtitles; [done|]. simpl in *. lia. }
  destruct (pyval_cases subtitles) as [HNaN|[lines ->]].
  - by rewrite _chunk_by_length_NaN.
  - apply text_lines_never_raise. rewrite length_fmap in Hlen. lia.
Qed.

Lemma fetched_transcript_never_raises_witness :
  raised (_chunk_by_length (length_policy 225 150) "v"
            [line "a b"; line "c"] [(0, 3); (3, 5)]) = None.
Proof.
  apply (fetched_transcript_never_raises
           (fun a b => match a, b with
                       | Val x, Val y => Val (x + y)
                       | _, _ => NaN
                       end)
           [ {| YouTubeClient.text := line "a b";
                YouTubeClient.start := Val 0;
                YouTubeClient.duration := Val 3 |};
             {| YouTubeClient.text := line "c";
                YouTubeClient.start := Val 3;
                YouTubeClient.duration := Val 2 |} ]
           [line "a b"; line "c"] [(Val 0, Val 3); (Val 3, Val 5)]);
    reflexivity.
Defined.

(** ** Pagination of metadata queries *)

Section Pagination.
Variable A : Type.
Variable execute : pystr -> result (YouTubeClient.response A).
Variable maxResults : option Z.

(** When the API serves a last page, the generator yields the pages
    served, in order, returns after the last one, and has added to
    units_consumed the maxResults of the query (1 when it has none) once
    per page. *)
Theorem paginate_served pageToken ps :
  served execute pageToken ps ->
  forall fuel units,
    (length ps <= fuel)%nat ->
    YouTubeClient.paginate A execute maxResults fuel pageToken units
    = {| YouTubeClient.yielded := ps;
         YouTubeClient.units_consumed :=
           units + len ps * default 1 maxResults;
         YouTubeClient.ended := YouTubeClient.Returned |}.
Proof.
  induction 1 as [tok r page Hr Hi Hn|tok r page ps Hr Hi Hn _ IH];
    intros fuel units Hfuel.
  - destruct fuel as [|fuel]; [simpl in Hfuel; lia|].
    cbn [YouTubeClient.paginate]. rewrite Hr, Hi, Hn.
    rewrite bool_decide_eq_true_2 by done. cbn [negb].
    unfold len. simpl. f_equal. lia.
  - destruct fuel as [|fuel]; [simpl in Hfuel; lia|].
    cbn [YouTubeClient.paginate]. rewrite Hr, Hi.
    rewrite bool_decide_eq_false_2 by done. cbn [negb].
    rewrite IH by (simpl in Hfuel; lia).
    unfold len. cbn [YouTubeClient.yielded YouTubeClient.units_consumed
                       YouTubeClient.ended length].
    f_equal. lia.
Qed.

(** State["daily_quota"] is never read: while each response carries a
    next page token the generator goes on requesting, and after n requests
    it has yielded n pages and counted n times the units, without an end. *)
Theorem paginate_unbounded :
  (forall pageToken, exists r page,
      execute pageToken = Ok r
      /\ YouTubeClient.items r = Some page
      /\ default [] (YouTubeClient.nextPageToken r) <> []) ->
  forall n pageToken units,
    let run := YouTubeClient.paginate A execute maxResults n pageToken units in
    YouTubeClient.ended run = YouTubeClient.Unfinished
    /\ length (YouTubeClient.yielded run) = n
    /\ YouTubeClient.units_consumed run
       = units + Z.of_nat n * default 1 maxResults.
Proof.
  intros Hex. induction n as [|n IH]; intros tok units.
  - simpl. split_and!; [done..|lia].
  - destruct (Hex tok) as (r & page & Hr & Hi & Hn).
    cbn [YouTubeClient.paginate]. cbv zeta. rewrite Hr, Hi.
    rewrite bool_decide_eq_false_2 by done. cbn [negb].
    destruct (IH (default [] (YouTubeClient.nextPageToken r))
                (units + default 1 maxResults)) as (H1 & H2 & H3).
    cbn [YouTubeClient.yielded YouTubeClient.units_consumed
           YouTubeClient.ended length].
    split_and!; [done|by rewrite H2|rewrite H3; lia].
Qed.
End Pagination.

Lemma paginate_served_witness :
  YouTubeClient.paginate nat two_pages (Some 50) 10 [] 0
  = {| YouTubeClient.yielded := [[1; 2]; [3]]%nat;
       YouTubeClient.units_consumed := 0 + len [[1; 2]; [3]]%nat * 50;
       YouTubeClient.ended := YouTubeClient.Returned |}.
Proof.
  apply (paginate_served nat two_pages (Some 50) [] [[1; 2]; [3]]%nat).
  - eapply served_next; [reflexivity|reflexivity|discriminate|].
    eapply served_last; reflexivity.
  - simpl. lia.
Defined.

Lemma paginate_unbounded_witness :
  YouTubeClient.units_consumed
    (YouTubeClient.paginate nat endless (Some 50) 201 [] 0)
  = 0 + Z.of_nat 201 * 50.
Proof.
  refine (proj2 (proj2
            (paginate_unbounded nat endless (Some 50) _ 201%nat [] 0))).
  intros pageToken. do 2 eexists. split_and!; [reflexivity..|discriminate].
Defined.

(** ** Instances of the two general lemmas on lines and times *)

Lemma chunk_lines_nonneg_witness :
  exists blks,
    Forall2 (fun r blk => block r = Val (join [SPACE] blk))
      (yields (_chunk_by_length (length_policy 2 1) "v"
                 (PStr <$> [str_of "a b"; str_of "c"; str_of "d e"])
                 ((0, 1) :: [(1, 2); (2, 3)]))) blks
    /\ (concat blks = [str_of "a b"; str_of "c"; str_of "d e"]
        \/ (exists i,
              (i < length [str_of "a b"; str_of "c"; str_of "d e"])%nat
              /\ concat blks
                 = take (S i) [str_of "a b"; str_of "c"; str_of "d e"]
                   ++ drop i [str_of "a b"; str_of "c"; str_of "d e"])).
Proof.
  apply (chunk_lines_nonneg (length_policy 2 1) "v"
           [str_of "a b"; str_of "c"; str_of "d e"] (0, 1) [(1, 2); (2, 3)]).
  - simpl. lia.
  - reflexivity.
Defined.

Lemma temporal_order_distinct_lines_witness :
  ordered_from 0
    (yields (_chunk_by_length (length_policy 2 1) "v"
               (PStr <$> [str_of "a"; str_of "b"; str_of "c"; str_of "d";
                          str_of "e"])
               (unit_intervals 5))).
Proof.
  apply temporal_order_distinct_lines.
  - apply (bool_decide_unpack _). vm_compute. exact I.
  - reflexivity.
  - apply well_formed_unit_intervals.
  - intros p [= <-]. simpl. lia.
Defined.
